(** * go-corefx: health aggregation and required-field checking

    A shallow embedding of [healthfx.go] (the [Health] aggregator with its
    readiness-failure counters) and of [checkRequired] from [corefx.go],
    together with the properties of the design document that they satisfy
    or break. *)

From Stdlib Require Import ZArith Lia Ascii String.
From stdpp Require Import gmap strings list fin_maps.

#[local] Set Warnings "-clear-no-such-hyp".
#[local] Set Warnings "-register-all".

(** ** Machine integers *)

(** Conversion to Go's [int32]: the value modulo 2^32, read as a signed
    two's-complement number. *)
Definition int32 (z : Z) : Z := ((z + 2 ^ 31) `mod` 2 ^ 32 - 2 ^ 31)%Z.

Definition MaxInt32 : Z := (2 ^ 31 - 1)%Z.
Definition MinInt32 : Z := (- 2 ^ 31)%Z.

(** [atomic.Int32]: the content of a cell, with its three operations. *)
Module Int32.
Abbreviation t := Z.
Definition zero : t := 0%Z.                       (* &atomic.Int32{} *)
Definition Load (c : t) : Z := c.
Definition Store (c : t) (v : Z) : t := int32 v.
Definition Add (c : t) (delta : Z) : t := int32 (c + delta).
End Int32.

(** ** Errors and statuses (healthfx.go, lines 10-35) *)

(** Go [error] values.  [ErrUnavailable] is the package-level sentinel; every
    other error (of an indicator, of [errors.New], of [fmt.Errorf]) is told
    apart by its message. *)
Inductive error : Type :=
  | ErrUnavailable
  | ErrorString (msg : string).

Definition Error (e : error) : string :=
  match e with
  | ErrUnavailable => "err unavailable"
  | ErrorString msg => msg
  end.

Definition HealthStatusUp : string := "UP".
Definition HealthStatusDown : string := "DOWN".
Definition HealthUnavailable : string := "UNAVAILABLE".

Record HealthStatus : Type := mkHealthStatus {
  Status : string;
  Err : option error      (* nil is None *)
}.

(** The results of the calls a probe makes on its indicators: [out i] is what
    the call on [p.checkers[i]] returned ([None] is a nil error).  The
    context argument and whatever else the indicators look at are folded
    into this oracle. *)
Definition Outcomes : Type := nat → option error.

(** ** The aggregator (healthfx.go, lines 37-134) *)

Section Aggregator.
(** Indicators are compared by identity, as Go does for the keys of
    [map[HealthIndicator]...].  They are taken to be comparable: on an
    indicator whose dynamic type is not comparable Go panics at the first
    map access, which is outside this model. *)
Context {I : Type} `{Countable I}.

(** [ReadinessThreshold s] is [None] when [s] does not implement
    [ReadinessThresholder], and the value of its method otherwise.  The
    method is taken to be a getter: [NewHealth] calls it twice on an
    indicator and both calls return the same value. *)
Variable ReadinessThreshold : I → option Z.

(** [notReadyCount] maps an indicator to the content of its own
    [*atomic.Int32] cell; [NewHealth] allocates one cell per key and the
    map itself is never changed afterwards. *)
Record Health : Type := mkHealth {
  checkers : list I;
  maxNotReadyConfig : gmap I Z;
  notReadyCount : gmap I Int32.t
}.

Definition isThresholded (s : I) : bool :=
  match ReadinessThreshold s with
  | Some t => bool_decide (0 ≤ t)%Z
  | None => false
  end.

(** The second loop of [NewHealth] asserts the interface again; the
    assertion cannot fail on a slice filtered by the same assertion, so
    its failure branch keeps the maps as they are. *)
Definition NewHealth (Checkers : list I) : Health :=
  let thresholdedReadinessReporters := List.filter isThresholded Checkers in
  {| checkers := Checkers;
     maxNotReadyConfig :=
       foldl (λ m s, match ReadinessThreshold s with
                     | Some t => <[s := t]> m
                     | None => m
                     end) ∅ thresholdedReadinessReporters;
     notReadyCount :=
       foldl (λ m s, <[s := Int32.zero]> m) ∅ thresholdedReadinessReporters |}.

Definition withNotReadyCount (p : Health) (m : gmap I Int32.t) : Health :=
  {| checkers := checkers p;
     maxNotReadyConfig := maxNotReadyConfig p;
     notReadyCount := m |}.

(** The loop of [Health.Liveness] from position [i] on.  [None] is the
    nil-pointer panic of [p.notReadyCount[l].Load()] on a missing cell. *)
Fixpoint Liveness_loop (out : Outcomes) (i : nat) (cs : list I)
    (liveness : bool) (res : gmap I HealthStatus) (p : Health)
    : option (bool * gmap I HealthStatus * Health) :=
  match cs with
  | [] => Some (liveness, res, p)
  | l :: cs' =>
    match out i with
    | Some err =>
      Liveness_loop out (S i) cs' false
        (<[l := mkHealthStatus HealthStatusDown (Some err)]> res) p
    | None =>
      match maxNotReadyConfig p !! l with
      | Some threshold =>
        match notReadyCount p !! l with
        | None => None
        | Some cell =>
          let notReadyCnt := Int32.Load cell in
          if (int32 threshold <? notReadyCnt)%Z then
            Liveness_loop out (S i) cs' false
              (<[l := mkHealthStatus HealthStatusDown (Some ErrUnavailable)]> res) p
          else
            Liveness_loop out (S i) cs' liveness
              (<[l := mkHealthStatus HealthStatusUp None]> res) p
        end
      | None =>
        Liveness_loop out (S i) cs' liveness
          (<[l := mkHealthStatus HealthStatusUp None]> res) p
      end
    end
  end.

Definition Health_Liveness (p : Health) (out : Outcomes)
    : option (bool * gmap I HealthStatus * Health) :=
  Liveness_loop out 0 (checkers p) true ∅ p.

(** The loop of [Health.Readiness] from position [i] on. *)
Fixpoint Readiness_loop (out : Outcomes) (i : nat) (cs : list I)
    (readiness : bool) (res : gmap I HealthStatus) (p : Health)
    : bool * gmap I HealthStatus * Health :=
  match cs with
  | [] => (readiness, res, p)
  | r :: cs' =>
    match out i with
    | None =>
      Readiness_loop out (S i) cs' readiness
        (<[r := mkHealthStatus HealthStatusUp None]> res)
        (match notReadyCount p !! r with
         | Some cnt => withNotReadyCount p (<[r := Int32.Store cnt 0]> (notReadyCount p))
         | None => p
         end)
    | Some err =>
      Readiness_loop out (S i) cs' false
        (<[r := mkHealthStatus HealthUnavailable (Some err)]> res)
        (match notReadyCount p !! r with
         | Some cnt => withNotReadyCount p (<[r := Int32.Add cnt 1]> (notReadyCount p))
         | None => p
         end)
    end
  end.

Definition Health_Readiness (p : Health) (out : Outcomes)
    : bool * gmap I HealthStatus * Health :=
  Readiness_loop out 0 (checkers p) true ∅ p.

(** A probe issued by the caller, with the outcomes of its calls. *)
Inductive Probe : Type :=
  | ProbeLiveness (out : Outcomes)
  | ProbeReadiness (out : Outcomes).

Definition isReadinessProbe (pr : Probe) : bool :=
  match pr with ProbeReadiness _ => true | ProbeLiveness _ => false end.

(** One probe after the other on the same aggregator. *)
Fixpoint runProbes (ps : list Probe) (p : Health) : option Health :=
  match ps with
  | [] => Some p
  | ProbeLiveness out :: ps' =>
    match Health_Liveness p out with
    | Some (_, _, p') => runProbes ps' p'
    | None => None
    end
  | ProbeReadiness out :: ps' => runProbes ps' (Health_Readiness p out).2
  end.

(** Every thresholded indicator has its cell. *)
Definition Health_wf (p : Health) : Prop :=
  ∀ l, is_Some (maxNotReadyConfig p !! l) → is_Some (notReadyCount p !! l).

(** Number of positions of [l] in [cs]. *)
Definition occurrences (l : I) (cs : list I) : nat :=
  length (filter (λ x, x = l) cs).

(** Every call the probe makes on [l] has an outcome in [P]. *)
Definition allCalls (cs : list I) (out : Outcomes) (l : I)
    (P : option error → Prop) : Prop :=
  ∀ i, cs !! i = Some l → P (out i).

(** What one iteration of [Health.Liveness] stores for [l] when the call
    returned [o], and whether it leaves the overall flag alone. *)
Definition thresholdExceeded (p : Health) (l : I) : bool :=
  match maxNotReadyConfig p !! l, notReadyCount p !! l with
  | Some threshold, Some cell => (int32 threshold <? Int32.Load cell)%Z
  | _, _ => false
  end.

Definition livenessStatus (p : Health) (l : I) (o : option error) : HealthStatus :=
  match o with
  | Some err => mkHealthStatus HealthStatusDown (Some err)
  | None =>
    if thresholdExceeded p l
    then mkHealthStatus HealthStatusDown (Some ErrUnavailable)
    else mkHealthStatus HealthStatusUp None
  end.

Definition livenessOk (p : Health) (l : I) (o : option error) : bool :=
  match o with
  | Some _ => false
  | None => negb (thresholdExceeded p l)
  end.

(** The same for one iteration of [Health.Readiness]. *)
Definition readinessStatus (o : option error) : HealthStatus :=
  match o with
  | Some err => mkHealthStatus HealthUnavailable (Some err)
  | None => mkHealthStatus HealthStatusUp None
  end.

Definition readinessOk (o : option error) : bool :=
  match o with Some _ => false | None => true end.

(** The flag and the detail map a probe loop builds, given what each
    iteration stores: both loops are instances of it. *)
Fixpoint probeFold (st : nat → I → HealthStatus) (ok : nat → I → bool)
    (i : nat) (cs : list I) (b : bool) (res : gmap I HealthStatus)
    : bool * gmap I HealthStatus :=
  match cs with
  | [] => (b, res)
  | l :: cs' => probeFold st ok (S i) cs' (b && ok i l) (<[l := st i l]> res)
  end.
End Aggregator.

Arguments Health I {_ _}.

(** ** Required configuration fields (corefx.go, lines 192-252)

    What [checkRequired] sees of its arguments through [reflect]. *)

(** [reflect.StructField]: the Go name of a field, what [Tag.Get] returns
    for the keys json and mapstructure (the empty string when the key is
    absent), and whether the name is exported. *)
Record StructField : Type := mkStructField {
  Name : string; Tag_json : string; Tag_mapstructure : string; exported : bool }.

(** A value of the configuration object: a struct with its fields in
    declaration order, or a value of any other kind, of which only
    [IsZero] matters. *)
Inductive value : Type :=
  | Scalar (zero : bool)
  | Struct (fields : list (StructField * value)).

(** An element of [vals].  A field of the configuration object is
    identified by its path, the indices of the fields to go through from the
    root struct; [PtrField q] is the pointer to that field, with the type of
    the field.  Two pointers are equal as interface values when type and
    address agree, which for fields of non-zero size means that the paths
    agree.  [PtrOther] is a valid pointer to anything else (a field of a
    copy, a variable, an element of an array). *)
Inductive anyVal : Type :=
  | NilInterface                   (* the nil interface value *)
  | NotPointer                     (* a value whose kind is not Pointer *)
  | NilPointer                     (* a typed nil pointer *)
  | PtrField (path : list nat)
  | PtrOther.

(** A call returns an error (nil is [None]) or panics. *)
Inductive outcome : Type :=
  | Returns (err : option error)
  | Panics.

(** [reflect.Value.IsZero]: a struct is zero when all its fields are. *)
Fixpoint IsZero (v : value) : bool :=
  match v with
  | Scalar zero => zero
  | Struct fields => forallb (λ fv, IsZero fv.2) fields
  end.

(** No field of the value, at any depth, has an unexported name. *)
Fixpoint allExported (v : value) : bool :=
  match v with
  | Scalar _ => true
  | Struct fields => forallb (λ fv, exported fv.1 && allExported fv.2) fields
  end.

(** The field at a path, through structs nested by value. *)
Fixpoint fieldAt (c : value) (q : list nat) : option (StructField * value) :=
  match q, c with
  | i :: q', Struct fs =>
    match fs !! i with
    | Some (f, v) =>
      match q' with
      | [] => Some (f, v)
      | _ :: _ => fieldAt v q'
      end
    | None => None
    end
  | _, _ => None
  end.

(** A non-nil pointer. *)
Definition validPointer (ptr : anyVal) : Prop :=
  match ptr with
  | PtrField _ | PtrOther => True
  | _ => False
  end.

Definition errNotPointer : error :=
  ErrorString "requiredValues must return array of pointer".

Section Required.
(** [strings.ToUpper], of the Go standard library. *)
Variable ToUpper : string → string.

Definition configName (field : StructField) : string :=
  if decide (Tag_json field = "") then
    if decide (Tag_mapstructure field = "") then Name field else Tag_mapstructure field
  else Tag_json field.

Definition missingError (field : StructField) : error :=
  ErrorString ("[" +:+ Name field +:+ "] is config, consider setting value: [" +:+
               configName field +:+ "] in config file or [" +:+
               ToUpper (configName field) +:+ "] in env").

(** The loop over the fields of [c], for one element [ptr] of [vals], from
    field [i] on; [base] is the path of [c] and [nested i v] the recursive
    call on the struct field [v] at index [i].  A field with an unexported
    name makes [Value.Set] (struct kind) or [Value.Interface] (other kinds)
    panic; a nil [ptr] makes [f.Addr()] panic. *)
Fixpoint fieldsLoop (nested : nat → value → outcome) (base : list nat)
    (ptr : anyVal) (i : nat) (fs : list (StructField * value)) : outcome :=
  match fs with
  | [] => Returns None
  | (field, valueField) :: rest =>
    if negb (exported field) then Panics else
    match (match valueField with
           | Struct _ => nested i valueField
           | Scalar _ => Returns None
           end) with
    | Returns None =>
      match ptr with
      | PtrField q =>
        if decide (q = base ++ [i]) then
          if IsZero valueField then Returns (Some (missingError field))
          else fieldsLoop nested base ptr (S i) rest
        else fieldsLoop nested base ptr (S i) rest
      | PtrOther => fieldsLoop nested base ptr (S i) rest
      | _ => Panics
      end
    | r => r
    end
  end.

(** The loop over [vals]; [body ptr] is the loop over the fields. *)
Fixpoint valsLoop (body : anyVal → outcome) (vs : list anyVal) : outcome :=
  match vs with
  | [] => Returns None
  | ptr :: vs' =>
    match ptr with
    | NilInterface => Panics
    | NotPointer => Returns (Some errNotPointer)
    | _ =>
      match body ptr with
      | Returns None => valsLoop body vs'
      | r => r
      end
    end
  end.

(** [checkRequired(s, vals...)], with [c] the struct [s] points to. *)
Fixpoint checkRequired (base : list nat) (c : value) (vals : list anyVal) {struct c} : outcome :=
  valsLoop (λ ptr,
    match c with
    | Scalar _ => Panics
    | Struct fs => fieldsLoop (λ i v, checkRequired (base ++ [i]) v vals) base ptr 0 fs
    end) vals.

(** The end of [LoadJSONConfig], once the configuration is loaded into
    [c]: the check runs when [RequiredValues] is not empty. *)
Definition LoadJSONConfig_required (c : value) (requireds : list anyVal) : outcome :=
  if decide (length requireds = 0) then Returns None
  else checkRequired [] c requireds.
End Required.


(** Induction on a value and on the values of its fields. *)
Fixpoint value_nested_ind (P : value → Prop)
    (HScalar : ∀ zero, P (Scalar zero))
    (HStruct : ∀ fs, Forall (λ fv, P fv.2) fs → P (Struct fs))
    (v : value) : P v :=
  match v with
  | Scalar zero => HScalar zero
  | Struct fs =>
    HStruct fs
      ((fix go (l : list (StructField * value)) : Forall (λ fv, P fv.2) l :=
          match l with
          | [] => ListDef.Forall_nil _
          | fv :: l' =>
            @ListDef.Forall_cons _ (λ fv, P fv.2) fv l'
              (let '(f, x) as fv0 := fv return P fv0.2 in
               value_nested_ind P HScalar HStruct x)
              (go l')
          end) fs)
  end.

(** ** Loading the configuration (corefx.go, lines 18-21, 64-71, 153-207) *)

Definition ConfigFolder : string := "configs".
Definition ConfigFile : string := "app.json".

(** [s[n:]] on the bytes of a string. *)
Fixpoint sliceFrom (n : nat) (s : string) : string :=
  match n, s with
  | O, _ => s
  | S n', String _ s' => sliceFrom n' s'
  | S _, EmptyString => EmptyString
  end.

(** What the calls of [LoadJSONConfigInto] into encoding/json and viper
    return: an error or nil, and for [MergeInConfig], by the file that
    [SetConfigFile] was given, the error together with whether
    [errors.Is(err, fs.ErrNotExist)] holds of it. *)
Record Viper : Type := mkViper {
  json_Marshal : option error;
  viper_ReadConfig : option error;
  viper_MergeInConfig : string → option (error * bool);
  viper_Unmarshal : option error
}.

Definition errNotConfigPointer : error :=
  ErrorString "LoadConfigInto require a pointer to config struct".

(** [LoadJSONConfigInto(cfg, automaticEnv, defaultCfgPath)]; [cfgIsPointer]
    tells whether the kind of [cfg] is Pointer. *)
Definition LoadJSONConfigInto (lib : Viper) (cfgIsPointer automaticEnv : bool)
    (defaultCfgPath : string) : option error :=
  if negb cfgIsPointer then Some errNotConfigPointer else
  match json_Marshal lib with
  | Some err => Some err
  | None =>
    match viper_ReadConfig lib with
    | Some err => Some err
    | None =>
      match
        (if String.prefix "file:" defaultCfgPath then
           match viper_MergeInConfig lib (sliceFrom 5 defaultCfgPath) with
           | Some (err, isNotExist) => if negb isNotExist then Some err else None
           | None => None
           end
         else None)
      with
      | Some err => Some err
      | None => viper_Unmarshal lib
      end
    end
  end.

(** [CoreEnv.AppConfigLocationValue], over [filepath.Join] and
    [filepath.Abs]. *)
Definition CoreEnv_AppConfigLocationValue (Join : list string → string)
    (Abs : string → string + error) : string * option error :=
  match Abs (Join ["."; ConfigFolder; ConfigFile]) with
  | inr err => ("", Some err)
  | inl path => ("file:" +:+ path, None)
  end.

(** [LoadJSONConfig]: [location] is what [p.Config.AppConfigLocationValue()]
    returns, [c] the configuration struct once loaded and [requireds] what
    [RequiredValues] returns on it. *)
Definition LoadJSONConfig (ToUpper : string → string) (lib : Viper)
    (location : string * option error) (cfgIsPointer automaticEnv : bool)
    (c : value) (requireds : list anyVal) : outcome :=
  match location.2 with
  | Some err => Returns (Some err)
  | None =>
    match LoadJSONConfigInto lib cfgIsPointer automaticEnv location.1 with
    | Some err => Returns (Some err)
    | None => LoadJSONConfig_required ToUpper c requireds
    end
  end.

(** ** The logger (slogfx.go, lines 31-89) *)

Definition ProfileProduction : string := "production".
Definition ProfileDevelopment : string := "development".
Definition ProfileDebug : string := "debug".

(** The levels of log/slog. *)
Module slog.
Definition LevelDebug : Z := (-4)%Z.
Definition LevelInfo : Z := 0%Z.
Definition LevelWarn : Z := 4%Z.
Definition LevelError : Z := 8%Z.
End slog.

Definition parseLogLevel (ToLower : string → string) (level : string) : Z :=
  let s := ToLower level in
  if decide (s = "debug") then slog.LevelDebug
  else if decide (s = "warn") then slog.LevelWarn
  else if decide (s = "error") then slog.LevelError
  else slog.LevelInfo.

(** What [newSlogLogger] reads through [CoreConfig] and [SentryConfig]. *)
Record CoreConfig : Type := mkCoreConfig {
  LogLevelValue : string;
  ProfileValue : string;
  LogFormatValue : string;
  AppNameValue : string;
  AppVersionValue : string
}.

Record SentryConfig : Type := mkSentryConfig {
  SentryDsnValue : string;
  SentryLogLevelValue : string
}.

(** [sentry.ClientOptions], the fields that are set. *)
Record ClientOptions : Type := mkClientOptions {
  Dsn : string;
  EnableTracing : bool;
  Environment : string;
  Release : string
}.

(** The handler built: on stdout in JSON or on stderr for the console, with
    its level. *)
Inductive Handler : Type :=
  | JSONHandler (level : Z)
  | ConsoleHandler (level : Z).

(** The logger returned: on the handler alone, or fanned out to the handler
    and a Sentry handler with its level. *)
Inductive Logger : Type :=
  | LoggerOn (h : Handler)
  | LoggerFanout (h : Handler) (sentryLogLevel : Z).

(** The options [newSlogLogger] passes to [sentry.Init]. *)
Definition sentryOptions (Config : CoreConfig) (LogConfig : SentryConfig)
    : ClientOptions :=
  let environment :=
    if decide (ProfileValue Config = ProfileProduction)
    then ProfileProduction else ProfileDevelopment in
  let release := if decide (AppNameValue Config = "") then "unknown"
                 else AppNameValue Config in
  let release := if decide (AppVersionValue Config ≠ "")
                 then release +:+ "@" +:+ AppVersionValue Config
                 else release in
  {| Dsn := SentryDsnValue LogConfig;
     EnableTracing := false;
     Environment := environment;
     Release := release |}.

(** [newSlogLogger]: the logger, the error, and whether the hook that
    flushes Sentry on stop was appended to the lifecycle.  [sentry_Init] is
    what [sentry.Init] returns on the options; [LogConfig] is [None] when
    the optional [SentryConfig] is nil. *)
Definition newSlogLogger (ToLower : string → string)
    (sentry_Init : ClientOptions → option error)
    (Config : CoreConfig) (LogConfig : option SentryConfig)
    : option Logger * option error * bool :=
  let level := parseLogLevel ToLower (LogLevelValue Config) in
  let level := if decide (ProfileValue Config = ProfileDebug)
               then slog.LevelDebug else level in
  let logFormat := LogFormatValue Config in
  let logFormat :=
    if decide (logFormat = "" ∧ ProfileValue Config = ProfileProduction)
    then "json" else logFormat in
  let handler := if decide (logFormat = "json")
                 then JSONHandler level else ConsoleHandler level in
  match LogConfig with
  | None => (Some (LoggerOn handler), None, false)
  | Some sc =>
    if decide (SentryDsnValue sc = "") then (Some (LoggerOn handler), None, false)
    else
      match sentry_Init (sentryOptions Config sc) with
      | Some err => (None, Some err, false)
      | None =>
        let sentryLogLevel :=
          if decide (SentryLogLevelValue sc ≠ "")
          then parseLogLevel ToLower (SentryLogLevelValue sc)
          else slog.LevelWarn in
        (Some (LoggerFanout handler sentryLogLevel), None, true)
      end
  end.

(** ** Sample indicators

    Two indicators identified by number: [db] declares a readiness
    threshold, [cache] implements [HealthIndicator] only. *)
Module Demo.
Definition db : nat := 1.
Definition cache : nat := 2.

Definition thresholds (T : Z) (s : nat) : option Z :=
  if decide (s = db) then Some T else None.

Definition notReady : error := ErrorString "not ready".
Definition failing : Outcomes := λ _, Some notReady.
Definition healthy : Outcomes := λ _, None.
(** Only the call at position [i] fails. *)
Definition failingAt (i : nat) : Outcomes :=
  λ j, if decide (j = i) then Some notReady else None.

(** [n] Readiness probes in a row, all calls failing. *)
Definition afterFailures (n : nat) (p : Health nat) : Health nat :=
  Nat.iter n (λ q, (Health_Readiness q failing).2) p.

Definition statusUp : HealthStatus := mkHealthStatus HealthStatusUp None.
Definition statusDownUnavailable : HealthStatus :=
  mkHealthStatus HealthStatusDown (Some ErrUnavailable).

(** [strings.ToUpper] on ASCII text. *)
Definition upperByte (a : ascii) : ascii :=
  let n := N_of_ascii a in
  if ((97 <=? n) && (n <=? 122))%N then ascii_of_N (n - 32) else a.

Fixpoint asciiToUpper (s : string) : string :=
  match s with
  | EmptyString => EmptyString
  | String a s' => String (upperByte a) (asciiToUpper s')
  end.

(** The configuration of examples/config: [myRequiredConfig] embeds
    [CoreEnv] (which embeds [SentryEnv]) and [NestedConfig], and has the
    field [Other]; [z] tells whether [Required] is unset, [z'] whether
    [Other] is. *)
Definition tagged (name tag : string) : StructField :=
  mkStructField name tag tag true.
Definition untagged (name : string) : StructField :=
  mkStructField name "" "" true.

Definition SentryEnv : value :=
  Struct [(tagged "SentryDsn" "sentry_dsn", Scalar true);
          (tagged "SentryLogLevel" "sentry_log_level", Scalar true)].

Definition CoreEnv : value :=
  Struct [(tagged "AppName" "app_name", Scalar false);
          (tagged "AppVersion" "app_version", Scalar false);
          (tagged "LogLevel" "log_level", Scalar false);
          (tagged "Profile" "profile", Scalar false);
          (untagged "SentryEnv", SentryEnv)].

Definition myRequiredConfig (z z' : bool) : value :=
  Struct [(untagged "CoreEnv", CoreEnv);
          (untagged "NestedConfig",
           Struct [(mkStructField "Required" "required" "" true, Scalar z)]);
          (untagged "Other", Scalar z')].

(** [&c.Required] and [&c.Other]. *)
Definition ptrRequired : anyVal := PtrField [1; 0].
Definition ptrOther : anyVal := PtrField [2].

(** A struct without nested structs: [AppName] is set, [Profile] and
    [Other] are not. *)
Definition flatFields : list (StructField * value) :=
  [(tagged "AppName" "app_name", Scalar false);
   (tagged "Profile" "profile", Scalar true);
   (untagged "Other", Scalar true)].

(** A struct with a field of unexported name. *)
Definition withSecret : value :=
  Struct [(tagged "AppName" "app_name", Scalar false);
          (mkStructField "secret" "" "" false, Scalar false)].

(** encoding/json and viper succeeding, with what merging a file gives. *)
Definition viperWith (merge : option (error * bool)) : Viper :=
  mkViper None None (λ _, merge) None.

Definition noSuchFile : error := ErrorString "open app.json: no such file".

Definition joinSlash (parts : list string) : string :=
  match parts with
  | [a; b; c] => a +:+ "/" +:+ b +:+ "/" +:+ c
  | _ => ""
  end.
Definition absUnder (root : string) (rel : string) : string + error :=
  inl (root +:+ rel).
End Demo.

(** ** Facts about the aggregator *)

Section AggregatorFacts.
Context {I : Type} `{Countable I}.
Implicit Types (p : Health I) (cs : list I) (l r : I) (out : Outcomes).
Implicit Types (res : gmap I HealthStatus) (b : bool).

(** *** Machine arithmetic *)

Lemma int32_range z : (MinInt32 ≤ int32 z ≤ MaxInt32)%Z.
Proof.
  unfold int32, MinInt32, MaxInt32.
  pose proof (Z.mod_pos_bound (z + 2 ^ 31) (2 ^ 32)) as Hb. lia.
Qed.

Lemma int32_small z : (MinInt32 ≤ z ≤ MaxInt32)%Z → int32 z = z.
Proof.
  unfold int32, MinInt32, MaxInt32. intros Hz.
  rewrite Z.mod_small; lia.
Qed.

Lemma int32_idemp_add z d : int32 (int32 z + d) = int32 (z + d).
Proof.
  unfold int32. f_equal.
  replace (((z + 2 ^ 31) `mod` 2 ^ 32 - 2 ^ 31 + d + 2 ^ 31))%Z
    with (((z + 2 ^ 31) `mod` 2 ^ 32 + d))%Z by lia.
  rewrite Zplus_mod_idemp_l. f_equal. lia.
Qed.

Lemma int32_succ z :
  int32 z ≠ MaxInt32 → int32 (z + 1) = (int32 z + 1)%Z.
Proof.
  intros Hne. rewrite <- int32_idemp_add.
  apply int32_small. pose proof (int32_range z). unfold MinInt32, MaxInt32 in *. lia.
Qed.

Lemma int32_succ_max z : int32 z = MaxInt32 → int32 (z + 1) = MinInt32.
Proof.
  intros Heq. rewrite <- int32_idemp_add, Heq. reflexivity.
Qed.

(** *** The generic loop *)

Lemma probeFold_app st ok i cs1 cs2 b res :
  probeFold st ok i (cs1 ++ cs2) b res =
  probeFold st ok (i + length cs1) cs2
    (probeFold st ok i cs1 b res).1 (probeFold st ok i cs1 b res).2.
Proof.
  revert i b res. induction cs1 as [|c cs1 IH]; intros i b res; simpl.
  - by rewrite Nat.add_0_r.
  - rewrite IH. by replace (S i + length cs1) with (i + S (length cs1)) by lia.
Qed.

Lemma probeFold_notin st ok i cs b res l :
  l ∉ cs → (probeFold st ok i cs b res).2 !! l = res !! l.
Proof.
  revert i b res. induction cs as [|c cs IH]; intros i b res Hl; simpl; [done|].
  apply not_elem_of_cons in Hl as [Hne Hl].
  rewrite IH by done. by rewrite lookup_insert_ne.
Qed.

Lemma probeFold_last st ok i pre l post b res :
  l ∉ post →
  (probeFold st ok i (pre ++ l :: post) b res).2 !! l = Some (st (i + length pre) l).
Proof.
  intros Hl. rewrite probeFold_app. simpl.
  rewrite probeFold_notin by done. by rewrite lookup_insert_eq.
Qed.

Lemma probeFold_dom st ok i cs b res :
  dom (probeFold st ok i cs b res).2 = list_to_set cs ∪ dom res.
Proof.
  revert i b res. induction cs as [|c cs IH]; intros i b res; simpl.
  - set_solver.
  - rewrite IH, dom_insert_L. set_solver.
Qed.

Lemma probeFold_flag st ok i cs b res :
  (probeFold st ok i cs b res).1 = false ↔
  b = false ∨ ∃ j l, cs !! j = Some l ∧ ok (i + j) l = false.
Proof.
  revert i b res. induction cs as [|c cs IH]; intros i b res; simpl.
  - split; [by left|]. intros [?|(j & l & Hj & _)]; [done|]. by rewrite lookup_nil in Hj.
  - rewrite IH. split.
    + intros [Hb|(j & l & Hj & Hok)].
      * apply andb_false_iff in Hb as [?|Hok]; [by left|].
        right. exists 0, c. by rewrite Nat.add_0_r.
      * right. exists (S j), l. split; [done|].
        by replace (i + S j) with (S i + j) by lia.
    + intros [->|(j & l & Hj & Hok)]; [by left|].
      destruct j as [|j]; simpl in Hj.
      * injection Hj as ->. rewrite Nat.add_0_r in Hok. left. rewrite Hok.
        apply andb_false_r.
      * right. exists j, l. split; [done|].
        by replace (S i + j) with (i + S j) by lia.
Qed.

(** *** The two probe loops *)

Lemma Liveness_loop_Some out i cs b res p x :
  Liveness_loop out i cs b res p = Some x →
  x = (probeFold (λ j l, livenessStatus p l (out j))
                 (λ j l, livenessOk p l (out j)) i cs b res, p).
Proof.
  revert i b res. induction cs as [|c cs IH]; intros i b res; simpl.
  - intros [= <-]. done.
  - unfold livenessStatus, livenessOk, thresholdExceeded.
    destruct (out i) as [err|].
    + rewrite andb_false_r. apply IH.
    + destruct (maxNotReadyConfig p !! c) as [threshold|].
      * destruct (notReadyCount p !! c) as [cell|]; [|done].
        simpl. destruct (int32 threshold <? Int32.Load cell)%Z; simpl.
        -- rewrite andb_false_r. apply IH.
        -- rewrite andb_true_r. apply IH.
      * simpl. rewrite andb_true_r. apply IH.
Qed.

Lemma Liveness_loop_wf out i cs b res p :
  Health_wf p → is_Some (Liveness_loop out i cs b res p).
Proof.
  intros Hwf. revert i b res. induction cs as [|c cs IH]; intros i b res; simpl.
  - by eexists.
  - destruct (out i) as [err|]; [apply IH|].
    destruct (maxNotReadyConfig p !! c) as [threshold|] eqn:Hthr; [|apply IH].
    destruct (Hwf c) as [cell ->]; [by eexists|].
    destruct (int32 threshold <? Int32.Load cell)%Z; apply IH.
Qed.

Lemma Health_Liveness_wf p out :
  Health_wf p →
  Health_Liveness p out =
  Some (probeFold (λ j l, livenessStatus p l (out j))
                  (λ j l, livenessOk p l (out j)) 0 (checkers p) true ∅, p).
Proof.
  intros Hwf. unfold Health_Liveness.
  destruct (Liveness_loop_wf out 0 (checkers p) true ∅ p Hwf) as [x Hx].
  rewrite Hx. f_equal. by apply Liveness_loop_Some.
Qed.

Lemma Readiness_loop_fold out i cs b res p :
  (Readiness_loop out i cs b res p).1 =
  probeFold (λ j _, readinessStatus (out j)) (λ j _, readinessOk (out j)) i cs b res.
Proof.
  revert i b res p. induction cs as [|c cs IH]; intros i b res p; simpl; [done|].
  destruct (out i) as [err|]; simpl.
  - rewrite andb_false_r. apply IH.
  - rewrite andb_true_r. apply IH.
Qed.

Lemma Readiness_loop_frame out i cs b res p :
  checkers (Readiness_loop out i cs b res p).2 = checkers p ∧
  maxNotReadyConfig (Readiness_loop out i cs b res p).2 = maxNotReadyConfig p ∧
  dom (notReadyCount (Readiness_loop out i cs b res p).2) = dom (notReadyCount p).
Proof.
  revert i b res p. induction cs as [|c cs IH]; intros i b res p; simpl; [done|].
  destruct (out i) as [err|]; destruct (notReadyCount p !! c) as [cnt|] eqn:Hc;
    try apply IH;
    match goal with
    | |- context [Readiness_loop ?o ?j ?k ?f ?m ?q] =>
      destruct (IH j f m q) as (-> & -> & ->)
    end; simpl; split_and!; try done;
    rewrite dom_insert_L; apply elem_of_dom_2 in Hc; set_solver.
Qed.

Lemma Readiness_loop_app out i cs1 cs2 b res p :
  Readiness_loop out i (cs1 ++ cs2) b res p =
  Readiness_loop out (i + length cs1) cs2
    (Readiness_loop out i cs1 b res p).1.1
    (Readiness_loop out i cs1 b res p).1.2
    (Readiness_loop out i cs1 b res p).2.
Proof.
  revert i b res p. induction cs1 as [|c cs1 IH]; intros i b res p; simpl.
  - by rewrite Nat.add_0_r.
  - replace (i + S (length cs1)) with (S i + length cs1) by lia.
    destruct (out i); apply IH.
Qed.

(** A cell is only touched by the iterations on its own indicator. *)
Lemma Readiness_loop_counter_notin out i cs b res p l :
  l ∉ cs →
  notReadyCount (Readiness_loop out i cs b res p).2 !! l = notReadyCount p !! l.
Proof.
  revert i b res p. induction cs as [|c cs IH]; intros i b res p Hl; simpl; [done|].
  apply not_elem_of_cons in Hl as [Hne Hl].
  destruct (out i); destruct (notReadyCount p !! c) eqn:Hc;
    rewrite IH by done; simpl; by rewrite ?lookup_insert_ne.
Qed.

(** Failing calls only: the cell advances by the number of calls, modulo
    2^32. *)
Lemma Readiness_loop_counter_fail out i cs b res p l c :
  (∀ j, cs !! j = Some l → out (i + j) ≠ None) →
  notReadyCount p !! l = Some (int32 c) →
  notReadyCount (Readiness_loop out i cs b res p).2 !! l =
  Some (int32 (c + Z.of_nat (occurrences l cs))).
Proof.
  unfold occurrences.
  revert i b res p c. induction cs as [|r cs IH]; intros i b res p c Hfail Hc; simpl.
  - by rewrite Z.add_0_r.
  - assert (Htl : ∀ j, cs !! j = Some l → out (S i + j) ≠ None).
    { intros j Hj. replace (S i + j) with (i + S j) by lia. by apply Hfail. }
    rewrite filter_cons. destruct (decide (r = l)) as [->|Hne].
    + specialize (Hfail 0 eq_refl). rewrite Nat.add_0_r in Hfail.
      destruct (out i) as [err|]; [|done]. rewrite Hc.
      rewrite (IH (S i) _ _ _ (c + 1)%Z); [| done |].
      * simpl. f_equal. f_equal. lia.
      * simpl. rewrite lookup_insert_eq. unfold Int32.Add.
        by rewrite int32_idemp_add.
    + destruct (out i); destruct (notReadyCount p !! r) eqn:Hr;
        apply IH; try done; simpl; by rewrite lookup_insert_ne.
Qed.

(** The last call on [l] succeeds: its cell holds 0 afterwards. *)
Lemma Readiness_loop_counter_reset out i pre l post b res p :
  l ∉ post → out (i + length pre) = None →
  is_Some (notReadyCount p !! l) →
  notReadyCount (Readiness_loop out i (pre ++ l :: post) b res p).2 !! l = Some 0%Z.
Proof.
  intros Hpost Hout Hsome. rewrite Readiness_loop_app. simpl. rewrite Hout.
  rewrite Readiness_loop_counter_notin by done.
  destruct (Readiness_loop_frame out i pre b res p) as (_ & _ & Hdom).
  apply elem_of_dom in Hsome. rewrite <- Hdom in Hsome.
  apply elem_of_dom in Hsome as [cnt ->]. simpl. by rewrite lookup_insert_eq.
Qed.

Lemma Health_Readiness_frame p out :
  checkers (Health_Readiness p out).2 = checkers p ∧
  maxNotReadyConfig (Health_Readiness p out).2 = maxNotReadyConfig p ∧
  dom (notReadyCount (Health_Readiness p out).2) = dom (notReadyCount p).
Proof. apply Readiness_loop_frame. Qed.

Lemma Health_Readiness_wf p out :
  Health_wf p → Health_wf (Health_Readiness p out).2.
Proof.
  intros Hwf l. destruct (Health_Readiness_frame p out) as (_ & -> & Hdom).
  intros Hl. apply elem_of_dom. rewrite Hdom. apply elem_of_dom. by apply Hwf.
Qed.

(** A sequence of probes never panics on a well-formed aggregator, and it
    keeps the indicator list, the thresholds and the set of cells. *)
Lemma runProbes_wf ps p :
  Health_wf p →
  ∃ p', runProbes ps p = Some p' ∧ Health_wf p' ∧
        checkers p' = checkers p ∧
        maxNotReadyConfig p' = maxNotReadyConfig p ∧
        dom (notReadyCount p') = dom (notReadyCount p).
Proof.
  revert p. induction ps as [|[out|out] ps IH]; intros p Hwf; simpl.
  - by exists p.
  - rewrite Health_Liveness_wf by done.
    destruct (probeFold _ _ _ _ _ _). by apply IH.
  - destruct (IH _ (Health_Readiness_wf p out Hwf)) as (p' & Hrun & Hwf' & Hc & Hm & Hd).
    destruct (Health_Readiness_frame p out) as (Hc0 & Hm0 & Hd0).
    exists p'. rewrite Hc, Hm, Hd. done.
Qed.

(** One Readiness probe moves a cell holding [int32 k] to [int32 k'] with
    [k'] at most [k] plus the number of calls on its indicator. *)
Lemma Readiness_loop_counter_bound out i cs b res p l k :
  (0 ≤ k)%Z → notReadyCount p !! l = Some (int32 k) →
  ∃ k', (0 ≤ k' ≤ k + Z.of_nat (occurrences l cs))%Z ∧
        notReadyCount (Readiness_loop out i cs b res p).2 !! l = Some (int32 k').
Proof.
  unfold occurrences.
  revert i b res p k. induction cs as [|r cs IH]; intros i b res p k Hk Hc; simpl.
  - exists k. split; [lia|done].
  - rewrite filter_cons. destruct (decide (r = l)) as [->|Hne].
    + rewrite Hc. destruct (out i) as [err|].
      * destruct (IH (S i) false
          (<[l:=mkHealthStatus HealthUnavailable (Some err)]> res)
          (withNotReadyCount p (<[l:=Int32.Add (int32 k) 1]> (notReadyCount p)))
          (k + 1)%Z) as (k' & Hk' & Hres); [lia| |].
        { simpl. rewrite lookup_insert_eq. unfold Int32.Add.
          by rewrite int32_idemp_add. }
        exists k'. split; [simpl; lia|done].
      * destruct (IH (S i) b
          (<[l:=mkHealthStatus HealthStatusUp None]> res)
          (withNotReadyCount p (<[l:=Int32.Store (int32 k) 0]> (notReadyCount p)))
          0%Z) as (k' & Hk' & Hres); [lia| |].
        { simpl. by rewrite lookup_insert_eq. }
        exists k'. split; [simpl; lia|done].
    + destruct (out i); destruct (notReadyCount p !! r) eqn:Hr;
        apply IH; try done; simpl; by rewrite lookup_insert_ne.
Qed.

(** The state reached from a fresh aggregator: thresholds are the declared
    ones and every cell holds [int32 k] for some [k] between 0 and the number
    of Readiness calls made on its indicator so far. *)
Lemma runProbes_counter_bound ps p p' l k :
  runProbes ps p = Some p' →
  (0 ≤ k)%Z → notReadyCount p !! l = Some (int32 k) →
  ∃ k', (0 ≤ k' ≤ k + Z.of_nat (length (List.filter isReadinessProbe ps) *
                                occurrences l (checkers p)))%Z ∧
        notReadyCount p' !! l = Some (int32 k').
Proof.
  revert p k. induction ps as [|[out|out] ps IH]; intros p k Hrun Hk Hc; simpl in *.
  - injection Hrun as <-. exists k. split; [lia|done].
  - destruct (Health_Liveness p out) as [[[b res] q]|] eqn:Hlive; [|done].
    apply Liveness_loop_Some in Hlive. injection Hlive as _ ->. by apply IH.
  - destruct (Readiness_loop_counter_bound out 0 (checkers p) true ∅ p l k Hk Hc)
      as (k1 & Hk1 & Hc1).
    destruct (IH _ k1 Hrun ltac:(lia) Hc1) as (k' & Hk' & Hc').
    destruct (Health_Readiness_frame p out) as (Hcs & _ & _).
    rewrite Hcs in Hk'. exists k'. split; [lia|done].
Qed.

(** Consecutive Readiness probes in which every call on [l] fails. *)
Lemma runProbes_counter_fail outs p p' l c :
  Forall (λ out, allCalls (checkers p) out l (λ o, o ≠ None)) outs →
  runProbes (ProbeReadiness <$> outs) p = Some p' →
  notReadyCount p !! l = Some (int32 c) →
  notReadyCount p' !! l =
  Some (int32 (c + Z.of_nat (length outs * occurrences l (checkers p)))).
Proof.
  revert p c. induction outs as [|out outs IH]; intros p c Hall Hrun Hc; simpl in *.
  - injection Hrun as <-. by rewrite Z.add_0_r.
  - apply Forall_cons in Hall as [Hout Hall].
    destruct (Health_Readiness_frame p out) as (Hcs & _ & _).
    rewrite (IH (Health_Readiness p out).2
               (c + Z.of_nat (occurrences l (checkers p)))%Z); [| |done|].
    + rewrite Hcs. f_equal. f_equal. lia.
    + by rewrite Hcs.
    + apply Readiness_loop_counter_fail; [|done]. intros j Hj. by apply Hout.
Qed.

(** *** What a probe returns *)

Lemma Health_Liveness_spec p out :
  Health_wf p →
  ∃ b res, Health_Liveness p out = Some (b, res, p) ∧
    (b = false ↔ ∃ j l, checkers p !! j = Some l ∧ livenessOk p l (out j) = false) ∧
    dom res = list_to_set (checkers p) ∧
    (∀ pre l post, checkers p = pre ++ l :: post → l ∉ post →
       res !! l = Some (livenessStatus p l (out (length pre)))).
Proof.
  intros Hwf. rewrite Health_Liveness_wf by done.
  destruct (probeFold _ _ 0 (checkers p) true ∅) as [b res] eqn:Hfold.
  exists b, res. split; [done|].
  assert (Hb : b = (probeFold (λ j l, livenessStatus p l (out j))
    (λ j l, livenessOk p l (out j)) 0 (checkers p) true ∅).1) by by rewrite Hfold.
  assert (Hr : res = (probeFold (λ j l, livenessStatus p l (out j))
    (λ j l, livenessOk p l (out j)) 0 (checkers p) true ∅).2) by by rewrite Hfold.
  split_and!.
  - rewrite Hb, probeFold_flag. naive_solver.
  - rewrite Hr, probeFold_dom. set_solver.
  - intros pre l post Hcs Hl. rewrite Hr, Hcs. by rewrite probeFold_last.
Qed.

Lemma Health_Readiness_spec p out :
  ((Health_Readiness p out).1.1 = false ↔
     ∃ j l, checkers p !! j = Some l ∧ out j ≠ None) ∧
  dom (Health_Readiness p out).1.2 = list_to_set (checkers p) ∧
  (∀ pre l post, checkers p = pre ++ l :: post → l ∉ post →
     (Health_Readiness p out).1.2 !! l = Some (readinessStatus (out (length pre)))).
Proof.
  unfold Health_Readiness. rewrite Readiness_loop_fold. split_and!.
  - rewrite probeFold_flag. split.
    + intros [?|(j & l & Hj & Hok)]; [done|]. exists j, l. split; [done|].
      simpl in Hok. by destruct (out j).
    + intros (j & l & Hj & Hout). right. exists j, l. split; [done|].
      simpl. by destruct (out j).
  - rewrite probeFold_dom. set_solver.
  - intros pre l post Hcs Hl. rewrite Hcs. by rewrite probeFold_last.
Qed.

Lemma allCalls_last cs out l (P : option error → Prop) :
  l ∈ cs → allCalls cs out l P →
  ∃ pre post, cs = pre ++ l :: post ∧ (l ∉ post) ∧ P (out (length pre)).
Proof.
  intros Hin Hall. apply list_elem_of_split_r in Hin as (pre & post & -> & Hpost).
  exists pre, post. split_and!; [done..|].
  apply Hall. by rewrite list_lookup_middle.
Qed.

(** *** The claims on any aggregator *)

(** The flags, call by call: the Readiness probe returns false exactly when
    one of its calls returned an error; the Liveness probe returns false
    exactly when one of its calls returned an error or the comparison of the
    counter with the threshold as an int32 succeeded. *)
Lemma probe_flags_per_call p out :
  Health_wf p →
  ((Health_Readiness p out).1.1 = false ↔
     ∃ i l, checkers p !! i = Some l ∧ out i ≠ None) ∧
  ∃ b res, Health_Liveness p out = Some (b, res, p) ∧
    (b = false ↔
       ∃ i l, checkers p !! i = Some l ∧
         (out i ≠ None ∨
          ∃ T c, maxNotReadyConfig p !! l = Some T ∧
                 notReadyCount p !! l = Some c ∧ (int32 T < c)%Z)).
Proof.
  intros Hwf. split; [apply Health_Readiness_spec|].
  destruct (Health_Liveness_spec p out Hwf) as (b & res & Hlive & Hb & _ & _).
  exists b, res. split; [done|]. rewrite Hb.
  split; intros (i & l & Hi & Hcase); exists i, l; (split; [done|]).
  - unfold livenessOk, thresholdExceeded, Int32.Load in Hcase.
    destruct (out i) as [err|]; [by left|]. right.
    destruct (maxNotReadyConfig p !! l) as [T|]; [|done].
    destruct (notReadyCount p !! l) as [c|]; [|done].
    exists T, c. split_and!; [done..|].
    apply Z.ltb_lt. by destruct (int32 T <? c)%Z.
  - unfold livenessOk, thresholdExceeded, Int32.Load.
    destruct (out i) as [err|]; [done|].
    destruct Hcase as [?|(T & c & -> & -> & Hlt)]; [done|].
    apply Z.ltb_lt in Hlt. by rewrite Hlt.
Qed.

(** C4.  Whatever a cell holds, a Readiness probe whose last call on the
    indicator succeeds leaves 0 in it; the failures that follow are counted
    from 0 again, and after T of them the Liveness probe still reports the
    indicator UP. *)
Theorem C4_success_resets_counter p out l c pre post :
  Health_wf p →
  notReadyCount p !! l = Some c →
  checkers p = pre ++ l :: post → l ∉ post → out (length pre) = None →
  notReadyCount (Health_Readiness p out).2 !! l = Some 0%Z ∧
  ∀ outs p2,
    Forall (λ out', allCalls (checkers p) out' l (λ o, o ≠ None)) outs →
    runProbes (ProbeReadiness <$> outs) (Health_Readiness p out).2 = Some p2 →
    notReadyCount p2 !! l =
      Some (int32 (Z.of_nat (length outs * occurrences l (checkers p)))) ∧
    ∀ T lout,
      maxNotReadyConfig p !! l = Some T →
      Z.of_nat (length outs * occurrences l (checkers p)) = T →
      allCalls (checkers p) lout l (λ o, o = None) →
      ∃ b res, Health_Liveness p2 lout = Some (b, res, p2) ∧
               res !! l = Some (mkHealthStatus HealthStatusUp None).
Proof.
  intros Hwf Hc Hcs Hpost Hout.
  assert (Hreset : notReadyCount (Health_Readiness p out).2 !! l = Some 0%Z).
  { unfold Health_Readiness. rewrite Hcs.
    apply Readiness_loop_counter_reset; [done..|]. by eexists. }
  split; [done|]. intros outs p2 Hall Hrun.
  destruct (Health_Readiness_frame p out) as (Hcs1 & Hm1 & _).
  pose proof (Health_Readiness_wf p out Hwf) as Hwf1.
  destruct (runProbes_wf (ProbeReadiness <$> outs) _ Hwf1)
    as (q & Hrun' & Hwf2 & Hcs2 & Hm2 & _).
  rewrite Hrun in Hrun'. injection Hrun' as <-.
  assert (Hcnt : notReadyCount p2 !! l =
    Some (int32 (Z.of_nat (length outs * occurrences l (checkers p))))).
  { rewrite (runProbes_counter_fail outs (Health_Readiness p out).2 p2 l 0);
      [by rewrite Hcs1|by rewrite Hcs1|done|done]. }
  split; [done|]. intros T lout HT Hk Hok.
  destruct (Health_Liveness_spec p2 lout Hwf2) as (b & res & Hlive & _ & _ & Hres).
  exists b, res. split; [done|].
  rewrite (Hres pre l post); [|congruence|done].
  rewrite (Hok (length pre)) by by rewrite Hcs, list_lookup_middle.
  unfold livenessStatus, thresholdExceeded. rewrite Hm2, Hm1, HT, Hcnt, Hk.
  unfold Int32.Load. by rewrite Z.ltb_irrefl.
Qed.

(** C6.  A Liveness probe hands the aggregator back as it found it, so a
    run of Liveness probes leaves every cell unchanged, and the state after
    any sequence of probes is the state after its Readiness probes alone. *)
Theorem C6_liveness_never_mutates ps p p' :
  runProbes ps p = Some p' →
  runProbes (List.filter isReadinessProbe ps) p = Some p' ∧
  (List.filter isReadinessProbe ps = [] → notReadyCount p' = notReadyCount p).
Proof.
  intros Hrun.
  assert (Hfilter : runProbes (List.filter isReadinessProbe ps) p = Some p').
  { revert p Hrun. induction ps as [|[out|out] ps IH]; intros p Hrun; simpl in *.
    - done.
    - destruct (Health_Liveness p out) as [[[b res] q]|] eqn:Hlive; [|done].
      apply Liveness_loop_Some in Hlive. injection Hlive as _ ->. by apply IH.
    - by apply IH. }
  split; [done|]. intros Hnil. rewrite Hnil in Hfilter.
  simpl in Hfilter. by injection Hfilter as <-.
Qed.

(** C7.  Whatever the calls return, both probes store a status for every
    registered indicator, and the status stored for an indicator is the one
    of the call at its last position: an error at one position does not
    keep the later positions from being probed. *)
Theorem C7_no_short_circuit p out i l :
  Health_wf p →
  checkers p !! i = Some l → l ∉ drop (S i) (checkers p) →
  (dom (Health_Readiness p out).1.2 = list_to_set (checkers p) ∧
   (Health_Readiness p out).1.2 !! l = Some (readinessStatus (out i))) ∧
  ∃ b res, Health_Liveness p out = Some (b, res, p) ∧
    dom res = list_to_set (checkers p) ∧
    res !! l = Some (livenessStatus p l (out i)).
Proof.
  intros Hwf Hi Hlast.
  assert (Hsplit : checkers p = take i (checkers p) ++ l :: drop (S i) (checkers p))
    by by rewrite take_drop_middle.
  assert (Hlen : length (take i (checkers p)) = i).
  { apply lookup_lt_Some in Hi. rewrite length_take. lia. }
  destruct (Health_Readiness_spec p out) as (_ & Hdom & Hres).
  split.
  - split; [done|]. rewrite (Hres _ _ _ Hsplit Hlast). by rewrite Hlen.
  - destruct (Health_Liveness_spec p out Hwf) as (b & res & Hlive & _ & Hd & Hr).
    exists b, res. split_and!; [done..|].
    rewrite (Hr _ _ _ Hsplit Hlast). by rewrite Hlen.
Qed.

(** C10.  For an indicator registered at several positions: the detail map
    of a probe has one entry per distinct indicator, holding the status of
    the call at the last position; and a Readiness probe in which all its
    calls fail adds the number of its positions to its one cell (modulo
    2^32). *)
Theorem C10_duplicate_indicator p out l pre post c :
  Health_wf p →
  checkers p = pre ++ l :: post → l ∉ post →
  notReadyCount p !! l = Some c → (MinInt32 ≤ c ≤ MaxInt32)%Z →
  (size (Health_Readiness p out).1.2 = size (list_to_set (checkers p) : gset I) ∧
   (Health_Readiness p out).1.2 !! l = Some (readinessStatus (out (length pre)))) ∧
  (∃ b res, Health_Liveness p out = Some (b, res, p) ∧
     size res = size (list_to_set (checkers p) : gset I) ∧
     res !! l = Some (livenessStatus p l (out (length pre)))) ∧
  (allCalls (checkers p) out l (λ o, o ≠ None) →
   notReadyCount (Health_Readiness p out).2 !! l =
     Some (int32 (c + Z.of_nat (occurrences l (checkers p))))).
Proof.
  intros Hwf Hcs Hpost Hc Hrange.
  destruct (Health_Readiness_spec p out) as (_ & Hdom & Hres).
  split_and!.
  - by rewrite <- size_dom, Hdom.
  - by apply (Hres pre l post).
  - destruct (Health_Liveness_spec p out Hwf) as (b & res & Hlive & _ & Hd & Hr).
    exists b, res. split_and!; [done| |by apply (Hr pre l post)].
    by rewrite <- size_dom, Hd.
  - intros Hfail. apply Readiness_loop_counter_fail; [done|].
    by rewrite int32_small.
Qed.
End AggregatorFacts.

(** ** Facts about an aggregator built by [NewHealth] *)

Section FreshAggregator.
Context {I : Type} `{Countable I}.
Variable ReadinessThreshold : I → option Z.
Implicit Types (p : Health I) (cs : list I) (l r : I) (out : Outcomes).
Implicit Types (res : gmap I HealthStatus) (b : bool).

(** *** Construction and sequences of probes *)

Lemma NewHealth_checkers cs : checkers (NewHealth ReadinessThreshold cs) = cs.
Proof. done. Qed.

Lemma NewHealth_maxNotReadyConfig cs l t :
  maxNotReadyConfig (NewHealth ReadinessThreshold cs) !! l = Some t ↔
  l ∈ cs ∧ ReadinessThreshold l = Some t ∧ (0 ≤ t)%Z.
Proof.
  unfold NewHealth; simpl.
  assert (Hgen : ∀ (xs : list I) (m : gmap I Z),
    (foldl (λ m s, match ReadinessThreshold s with
                  | Some t => <[s := t]> m | None => m end) m xs) !! l = Some t ↔
    (l ∈ xs ∧ ReadinessThreshold l = Some t) ∨
    (((l ∉ xs) ∨ ReadinessThreshold l = None) ∧ m !! l = Some t)).
  { induction xs as [|x xs IH]; intros m; simpl.
    - split; [intros ?; right; split; [left; apply not_elem_of_nil|done]|].
      intros [[Hin _]|[_ ?]]; [by apply elem_of_nil in Hin|done].
    - rewrite IH, elem_of_cons.
      destruct (decide (x = l)) as [->|Hne].
      + destruct (ReadinessThreshold l) as [t'|] eqn:Ht.
        * rewrite lookup_insert_eq. destruct (decide (l ∈ xs)); naive_solver.
        * naive_solver.
      + destruct (ReadinessThreshold x) as [t'|] eqn:Ht;
          rewrite ?lookup_insert_ne by done; naive_solver. }
  rewrite Hgen, lookup_empty.
  rewrite !list_elem_of_In, filter_In. unfold isThresholded.
  split.
  - intros [[[Hin Hthr] Ht]|[_ ?]]; [|done].
    rewrite Ht in Hthr. apply bool_decide_eq_true in Hthr. done.
  - intros (Hin & Ht & Hpos). left. rewrite Ht. split; [|done].
    split; [done|]. by apply bool_decide_eq_true.
Qed.

Lemma NewHealth_notReadyCount cs l c :
  notReadyCount (NewHealth ReadinessThreshold cs) !! l = Some c ↔
  c = 0%Z ∧ l ∈ cs ∧ ∃ t, ReadinessThreshold l = Some t ∧ (0 ≤ t)%Z.
Proof.
  unfold NewHealth; simpl.
  assert (Hgen : ∀ (xs : list I) (m : gmap I Int32.t),
    (foldl (λ m s, <[s := Int32.zero]> m) m xs) !! l = Some c ↔
    (l ∈ xs ∧ c = 0%Z) ∨ ((l ∉ xs) ∧ m !! l = Some c)).
  { induction xs as [|x xs IH]; intros m; simpl.
    - split; [intros ?; right; split; [apply not_elem_of_nil|done]|].
      intros [[Hin _]|[_ ?]]; [by apply elem_of_nil in Hin|done].
    - rewrite IH, elem_of_cons.
      destruct (decide (x = l)) as [->|Hne].
      + rewrite lookup_insert_eq. unfold Int32.zero.
        destruct (decide (l ∈ xs)); naive_solver.
      + rewrite lookup_insert_ne by done. naive_solver. }
  rewrite Hgen, lookup_empty.
  rewrite !list_elem_of_In, filter_In. unfold isThresholded.
  split.
  - intros [[[Hin Hthr] ->]|[_ ?]]; [|done].
    destruct (ReadinessThreshold l) as [t|]; [|done].
    apply bool_decide_eq_true in Hthr. eauto.
  - intros (-> & Hin & t & Ht & Hpos). left. rewrite Ht. split; [|done].
    split; [done|]. by apply bool_decide_eq_true.
Qed.

Lemma NewHealth_wf cs : Health_wf (NewHealth ReadinessThreshold cs).
Proof.
  intros l [t Ht]. apply NewHealth_maxNotReadyConfig in Ht as (Hin & Ht & Hpos).
  exists 0%Z. apply NewHealth_notReadyCount. eauto.
Qed.

Lemma runProbes_reachable cs ps p :
  runProbes ps (NewHealth ReadinessThreshold cs) = Some p →
  Health_wf p ∧ checkers p = cs ∧
  maxNotReadyConfig p = maxNotReadyConfig (NewHealth ReadinessThreshold cs) ∧
  dom (notReadyCount p) = dom (notReadyCount (NewHealth ReadinessThreshold cs)).
Proof.
  intros Hrun.
  destruct (runProbes_wf ps _ (NewHealth_wf cs)) as (p' & Hrun' & Hwf & Hc & Hm & Hd).
  rewrite Hrun in Hrun'. injection Hrun' as <-. done.
Qed.

Lemma runProbes_reachable_counter cs ps p l c :
  runProbes ps (NewHealth ReadinessThreshold cs) = Some p →
  notReadyCount p !! l = Some c →
  ∃ k, (0 ≤ k ≤ Z.of_nat (length (List.filter isReadinessProbe ps) *
                          occurrences l cs))%Z ∧ c = int32 k.
Proof.
  intros Hrun Hc.
  destruct (runProbes_reachable cs ps p Hrun) as (_ & _ & _ & Hd).
  assert (Hc0 : notReadyCount (NewHealth ReadinessThreshold cs) !! l = Some (int32 0)).
  { assert (Hin : l ∈ dom (notReadyCount p)) by (apply elem_of_dom; eauto).
    rewrite Hd in Hin. apply elem_of_dom in Hin as [c0 Hc0].
    rewrite Hc0. by apply NewHealth_notReadyCount in Hc0 as (-> & _). }
  destruct (runProbes_counter_bound ps _ p l 0 Hrun ltac:(lia) Hc0) as (k & Hk & Hc').
  rewrite Hc in Hc'. injection Hc' as ->. exists k. split; [|done].
  rewrite NewHealth_checkers in Hk. lia.
Qed.

(** *** The claims on an aggregator built by [NewHealth] *)

(** C1 (amended).  On an aggregator built by [NewHealth] and probed any
    number of times, an indicator with a threshold whose Liveness calls all
    return nil and whose failure counter exceeds the threshold is reported by
    the Liveness probe with status DOWN (the same status as for a probe
    error) and with the sentinel [ErrUnavailable] as cause, and the overall
    result is false. *)
Theorem C1_threshold_exceeded_reports_down cs ps p lout l T c :
  runProbes ps (NewHealth ReadinessThreshold cs) = Some p →
  l ∈ cs →
  maxNotReadyConfig p !! l = Some T →
  notReadyCount p !! l = Some c →
  allCalls cs lout l (λ o, o = None) →
  (T < c)%Z →
  ∃ res, Health_Liveness p lout = Some (false, res, p) ∧
         res !! l = Some (mkHealthStatus HealthStatusDown (Some ErrUnavailable)).
Proof.
  intros Hrun Hin HT Hc Hok Hlt.
  destruct (runProbes_reachable cs ps p Hrun) as (Hwf & Hcs & Hm & _).
  destruct (runProbes_reachable_counter cs ps p l c Hrun Hc) as (k & _ & ->).
  assert (HT0 : (0 ≤ T)%Z).
  { rewrite Hm in HT. by apply NewHealth_maxNotReadyConfig in HT as (_ & _ & ?). }
  assert (Hexc : thresholdExceeded p l = true).
  { unfold thresholdExceeded. rewrite HT, Hc. unfold Int32.Load.
    pose proof (int32_range k) as Hr.
    rewrite (int32_small T) by (unfold MinInt32, MaxInt32 in *; lia).
    by apply Z.ltb_lt. }
  destruct (allCalls_last cs lout l _ Hin Hok) as (pre & post & Hsplit & Hpost & Hout).
  destruct (Health_Liveness_spec p lout Hwf) as (b & res & Hlive & Hb & _ & Hres).
  assert (b = false) as ->.
  { apply Hb. exists (length pre), l. rewrite Hcs, Hsplit.
    split; [by rewrite list_lookup_middle|].
    rewrite Hout. simpl. by rewrite Hexc. }
  exists res. split; [done|].
  rewrite (Hres pre l post); [|congruence|done].
  by rewrite Hout; simpl; rewrite Hexc.
Qed.

(** The cell of a thresholded indicator after consecutive failing probes on
    a fresh aggregator. *)
Lemma fresh_counter_fail cs l T outs p :
  l ∈ cs → ReadinessThreshold l = Some T → (0 ≤ T)%Z →
  Forall (λ out, allCalls cs out l (λ o, o ≠ None)) outs →
  runProbes (ProbeReadiness <$> outs) (NewHealth ReadinessThreshold cs) = Some p →
  maxNotReadyConfig p !! l = Some T ∧
  notReadyCount p !! l = Some (int32 (Z.of_nat (length outs * occurrences l cs))).
Proof.
  intros Hin HT Hpos Hall Hrun.
  destruct (runProbes_reachable cs _ p Hrun) as (_ & _ & Hm & _).
  split.
  - rewrite Hm. apply NewHealth_maxNotReadyConfig. done.
  - rewrite (runProbes_counter_fail outs (NewHealth ReadinessThreshold cs) p l 0);
      [by rewrite NewHealth_checkers|by rewrite NewHealth_checkers|done|].
    apply NewHealth_notReadyCount. eauto.
Qed.

(** C2 (amended).  For an indicator with declared threshold T >= 0: after T
    consecutive failed Readiness calls on a fresh aggregator the next
    Liveness probe still reports it UP, and after T+1 of them it reports it
    as failed (DOWN with [ErrUnavailable], overall result false) provided
    the 32-bit value of T is not 2^31-1, which holds for every
    0 <= T < 2^31-1.  Failures are counted per call, so an indicator
    registered several times counts once per position in each probe. *)
Theorem C2_escalation_at_threshold_plus_one cs l T outs lout p :
  l ∈ cs → ReadinessThreshold l = Some T → (0 ≤ T)%Z →
  Forall (λ out, allCalls cs out l (λ o, o ≠ None)) outs →
  runProbes (ProbeReadiness <$> outs) (NewHealth ReadinessThreshold cs) = Some p →
  allCalls cs lout l (λ o, o = None) →
  ∃ b res, Health_Liveness p lout = Some (b, res, p) ∧
    (Z.of_nat (length outs * occurrences l cs) = T →
       res !! l = Some (mkHealthStatus HealthStatusUp None)) ∧
    (Z.of_nat (length outs * occurrences l cs) = (T + 1)%Z →
       int32 T ≠ MaxInt32 →
       b = false ∧
       res !! l = Some (mkHealthStatus HealthStatusDown (Some ErrUnavailable))).
Proof.
  intros Hin HT Hpos Hall Hrun Hok.
  destruct (fresh_counter_fail cs l T outs p Hin HT Hpos Hall Hrun) as (Hthr & Hcnt).
  destruct (runProbes_reachable cs _ p Hrun) as (Hwf & Hcs & _ & _).
  destruct (allCalls_last cs lout l _ Hin Hok) as (pre & post & Hsplit & Hpost & Hout).
  destruct (Health_Liveness_spec p lout Hwf) as (b & res & Hlive & Hb & _ & Hres).
  exists b, res. split; [done|].
  rewrite (Hres pre l post); [|congruence|done].
  rewrite Hout. unfold livenessStatus, thresholdExceeded.
  rewrite Hthr, Hcnt. unfold Int32.Load. split.
  - intros ->. by rewrite Z.ltb_irrefl.
  - intros Hk Hmax. rewrite Hk in *. rewrite (int32_succ T Hmax).
    assert (Hlt : (int32 T <? int32 T + 1)%Z = true) by (apply Z.ltb_lt; lia).
    rewrite Hlt. split; [|done].
    apply Hb. exists (length pre), l. rewrite Hcs, Hsplit.
    split; [by rewrite list_lookup_middle|].
    rewrite Hout. unfold livenessOk, thresholdExceeded.
    rewrite Hthr, Hcnt. unfold Int32.Load.
    by rewrite (int32_succ T Hmax), Hlt.
Qed.

(** C5.  An indicator without a threshold, or with a negative one, is
    reported UP by every Liveness probe in which its own calls return nil,
    whatever probes came before; when such a probe returns false, an
    iteration on another indicator caused it. *)
Theorem C5_unthresholded_never_escalates cs ps p l lout :
  (ReadinessThreshold l = None ∨
   ∃ t, ReadinessThreshold l = Some t ∧ (t < 0)%Z) →
  runProbes ps (NewHealth ReadinessThreshold cs) = Some p →
  l ∈ cs →
  allCalls cs lout l (λ o, o = None) →
  ∃ b res, Health_Liveness p lout = Some (b, res, p) ∧
    res !! l = Some (mkHealthStatus HealthStatusUp None) ∧
    (b = false →
       ∃ i l', cs !! i = Some l' ∧ l' ≠ l ∧
         (lout i ≠ None ∨
          ∃ T c, maxNotReadyConfig p !! l' = Some T ∧
                 notReadyCount p !! l' = Some c ∧ (int32 T < c)%Z)).
Proof.
  intros Hno Hrun Hin Hok.
  destruct (runProbes_reachable cs ps p Hrun) as (Hwf & Hcs & Hm & _).
  assert (Hnone : maxNotReadyConfig p !! l = None).
  { rewrite Hm. apply eq_None_not_Some. intros [t Ht].
    apply NewHealth_maxNotReadyConfig in Ht as (_ & Ht & Hpos).
    destruct Hno as [Hn|(t' & Hn & Hneg)]; rewrite Hn in Ht; [done|].
    injection Ht as ->. lia. }
  assert (Hexc : thresholdExceeded p l = false).
  { unfold thresholdExceeded. by rewrite Hnone. }
  destruct (allCalls_last cs lout l _ Hin Hok) as (pre & post & Hsplit & Hpost & Hout).
  destruct (Health_Liveness_spec p lout Hwf) as (b & res & Hlive & Hb & _ & Hres).
  exists b, res. split_and!; [done| |].
  - rewrite (Hres pre l post); [|congruence|done].
    rewrite Hout. unfold livenessStatus. by rewrite Hexc.
  - intros Hfalse. apply Hb in Hfalse as (i & l' & Hi & Hbad).
    rewrite Hcs in Hi. exists i, l'. split; [done|].
    destruct (decide (l' = l)) as [->|Hne].
    + rewrite (Hok i Hi) in Hbad. simpl in Hbad. by rewrite Hexc in Hbad.
    + split; [done|]. unfold livenessOk, thresholdExceeded, Int32.Load in Hbad.
      destruct (lout i) as [err|]; [by left|]. right.
      destruct (maxNotReadyConfig p !! l') as [T|]; [|done].
      destruct (notReadyCount p !! l') as [c|]; [|done].
      exists T, c. split_and!; [done..|].
      apply Z.ltb_lt. by destruct (int32 T <? c)%Z.
Qed.

(** C8 (amended).  On an aggregator built by [NewHealth], after any
    sequence of probes every cell holds an int32 value, and it holds a
    value between 0 and the number of Readiness calls made on its indicator
    as long as that number does not exceed 2^31-1. *)
Theorem C8_counter_range cs ps p l c :
  runProbes ps (NewHealth ReadinessThreshold cs) = Some p →
  notReadyCount p !! l = Some c →
  (MinInt32 ≤ c ≤ MaxInt32)%Z ∧
  (Z.of_nat (length (List.filter isReadinessProbe ps) * occurrences l cs) ≤ MaxInt32 →
   0 ≤ c ≤ Z.of_nat (length (List.filter isReadinessProbe ps) * occurrences l cs))%Z.
Proof.
  intros Hrun Hc.
  destruct (runProbes_reachable_counter cs ps p l c Hrun Hc) as (k & Hk & ->).
  split; [apply int32_range|]. intros Hsmall.
  rewrite int32_small; [lia|]. unfold MinInt32, MaxInt32 in *. lia.
Qed.
End FreshAggregator.

(** ** Further properties of the aggregator *)

Section AggregatorMore.
Context {I : Type} `{Countable I}.
Variable ReadinessThreshold : I → option Z.
Implicit Types (p : Health I) (cs : list I) (l : I) (out : Outcomes).
Implicit Types (res : gmap I HealthStatus) (b : bool).

(** An entry of the detail map was stored by an iteration, or was there
    before the loop. *)
Lemma probeFold_lookup_inv st ok i cs b res l s :
  (probeFold st ok i cs b res).2 !! l = Some s →
  ((l ∉ cs) ∧ res !! l = Some s) ∨
  ∃ j, cs !! j = Some l ∧ (l ∉ drop (S j) cs) ∧ s = st (i + j) l.
Proof.
  intros Hs. destruct (decide (l ∈ cs)) as [Hin|Hnin].
  - right. apply list_elem_of_split_r in Hin as (pre & post & -> & Hpost).
    rewrite probeFold_last in Hs by done. injection Hs as <-.
    exists (length pre). split_and!; [by rewrite list_lookup_middle| |done].
    replace (S (length pre)) with (length (pre ++ [l]))
      by (rewrite length_app; simpl; lia).
    replace (pre ++ l :: post) with ((pre ++ [l]) ++ post)
      by (by rewrite <- (assoc_L (++))).
    by rewrite drop_app_length.
  - left. split; [done|]. by rewrite probeFold_notin in Hs.
Qed.

Lemma NoDup_lookup_last cs j l :
  NoDup cs → cs !! j = Some l → l ∉ drop (S j) cs.
Proof.
  intros Hnd Hj. rewrite <- (take_drop_middle cs j l Hj) in Hnd.
  apply NoDup_app in Hnd as (_ & _ & Hnd). by apply NoDup_cons in Hnd as [? _].
Qed.

Lemma lookup_split_last cs j l :
  cs !! j = Some l → l ∉ drop (S j) cs →
  cs = take j cs ++ l :: drop (S j) cs ∧ length (take j cs) = j.
Proof.
  intros Hj _. split; [by rewrite take_drop_middle|].
  apply lookup_lt_Some in Hj. rewrite length_take. lia.
Qed.

(** X1.  [NewHealth] keeps the list it is given, and gives a threshold
    entry and a cell, holding 0, to exactly the registered indicators that
    declare a non-negative threshold; however often an indicator is
    registered, the entry holds its declared threshold. *)
Theorem NewHealth_entries cs l :
  checkers (NewHealth ReadinessThreshold cs) = cs ∧
  (∀ t, maxNotReadyConfig (NewHealth ReadinessThreshold cs) !! l = Some t ↔
        l ∈ cs ∧ ReadinessThreshold l = Some t ∧ (0 ≤ t)%Z) ∧
  (∀ c, notReadyCount (NewHealth ReadinessThreshold cs) !! l = Some c ↔
        c = 0%Z ∧ is_Some (maxNotReadyConfig (NewHealth ReadinessThreshold cs) !! l)).
Proof.
  split_and!; [done|apply NewHealth_maxNotReadyConfig|].
  intros c. rewrite NewHealth_notReadyCount. split.
  - intros (-> & Hin & t & Ht & Hpos). split; [done|]. exists t.
    by apply NewHealth_maxNotReadyConfig.
  - intros (-> & t & Ht). apply NewHealth_maxNotReadyConfig in Ht as (? & ? & ?).
    eauto.
Qed.

(** X2.  On an aggregator built by [NewHealth] over indicators that are
    comparable as map keys, every probe of any sequence finds the cell of
    each indicator that has a threshold, so that [p.notReadyCount[l].Load()]
    never dereferences nil, and no probe changes the indicator list, the
    thresholds or the set of indicators that have a cell: the thresholds are
    those read at construction. *)
Theorem probes_keep_configuration cs ps :
  ∃ p, runProbes ps (NewHealth ReadinessThreshold cs) = Some p ∧
       checkers p = cs ∧
       maxNotReadyConfig p = maxNotReadyConfig (NewHealth ReadinessThreshold cs) ∧
       dom (notReadyCount p) = dom (maxNotReadyConfig p).
Proof.
  destruct (runProbes_wf ps _ (NewHealth_wf ReadinessThreshold cs))
    as (p & Hrun & _ & Hcs & Hm & Hd).
  exists p. split_and!; [done..|].
  rewrite Hd, Hm. apply set_eq. intros l. rewrite !elem_of_dom. split.
  - intros [c Hc]. apply NewHealth_notReadyCount in Hc as (_ & Hin & t & Ht & Hpos).
    exists t. by apply NewHealth_maxNotReadyConfig.
  - intros [t Ht]. apply NewHealth_maxNotReadyConfig in Ht as (Hin & Ht & Hpos).
    exists 0%Z. apply NewHealth_notReadyCount. eauto.
Qed.

(** X3.  The Readiness probe only ever stores UP without error or
    UNAVAILABLE with the error of the call; the Liveness probe only ever
    stores UP without error or DOWN with an error.  Readiness never reports
    DOWN and Liveness never reports UNAVAILABLE. *)
Theorem probe_status_vocabulary p out :
  (∀ l s, (Health_Readiness p out).1.2 !! l = Some s →
     s = mkHealthStatus HealthStatusUp None ∨
     ∃ err, s = mkHealthStatus HealthUnavailable (Some err)) ∧
  (∀ b res p' l s, Health_Liveness p out = Some (b, res, p') →
     res !! l = Some s →
     s = mkHealthStatus HealthStatusUp None ∨
     ∃ err, s = mkHealthStatus HealthStatusDown (Some err)).
Proof.
  split.
  - intros l s. unfold Health_Readiness. rewrite Readiness_loop_fold. intros Hs.
    apply probeFold_lookup_inv in Hs as [[_ Hs]|(j & _ & _ & ->)]; [done|].
    simpl. destruct (out j); eauto.
  - intros b res p' l s Hlive Hs. apply Liveness_loop_Some in Hlive.
    injection Hlive as Hfold ->.
    assert (res = (probeFold (λ j l, livenessStatus p l (out j))
      (λ j l, livenessOk p l (out j)) 0 (checkers p) true ∅).2) as ->
      by by rewrite <- Hfold.
    apply probeFold_lookup_inv in Hs as [[_ Hs]|(j & _ & _ & ->)]; [done|].
    unfold livenessStatus. simpl.
    destruct (out j); [eauto|]. destruct (thresholdExceeded p l); eauto.
Qed.

(** X4.  When a probe returns true every entry of its detail map is UP; when
    it returns false and the registered indicators are distinct, the map has
    an entry that is not UP. *)
Theorem probe_flag_and_entries p out :
  Health_wf p →
  ∃ b res, Health_Liveness p out = Some (b, res, p) ∧
    (b = true → ∀ l s, res !! l = Some s → Status s = HealthStatusUp) ∧
    (b = false → NoDup (checkers p) →
       ∃ l s, res !! l = Some s ∧ Status s = HealthStatusDown) ∧
    ((Health_Readiness p out).1.1 = true →
       ∀ l s, (Health_Readiness p out).1.2 !! l = Some s →
              Status s = HealthStatusUp) ∧
    ((Health_Readiness p out).1.1 = false → NoDup (checkers p) →
       ∃ l s, (Health_Readiness p out).1.2 !! l = Some s ∧
              Status s = HealthUnavailable).
Proof.
  intros Hwf.
  destruct (Health_Liveness_spec p out Hwf) as (b & res & Hlive & Hb & _ & Hres).
  destruct (Health_Readiness_spec p out) as (Hrb & _ & Hrres).
  exists b, res. split_and!; [done|..].
  - intros -> l s Hs.
    pose proof Hlive as Hfold. apply Liveness_loop_Some in Hfold.
    injection Hfold as Hfold.
    assert (res = (probeFold (λ j l, livenessStatus p l (out j))
      (λ j l, livenessOk p l (out j)) 0 (checkers p) true ∅).2) as Hr
      by by rewrite <- Hfold.
    rewrite Hr in Hs.
    apply probeFold_lookup_inv in Hs as [[_ Hs]|(j & Hj & _ & ->)]; [done|].
    destruct (livenessOk p l (out j)) eqn:Hok.
    + unfold livenessOk in Hok. unfold livenessStatus. simpl.
      destruct (out j); [done|]. by destruct (thresholdExceeded p l).
    + assert (true = false); [|done]. apply Hb. by exists j, l.
  - intros -> Hnd. destruct Hb as [Hb _].
    destruct (Hb eq_refl) as (j & l & Hj & Hok).
    pose proof (NoDup_lookup_last _ _ _ Hnd Hj) as Hlast.
    destruct (lookup_split_last _ _ _ Hj Hlast) as [Hsplit Hlen].
    exists l, (livenessStatus p l (out j)). split.
    + rewrite (Hres _ _ _ Hsplit Hlast). by rewrite Hlen.
    + unfold livenessOk in Hok. unfold livenessStatus.
      destruct (out j); [done|]. by destruct (thresholdExceeded p l).
  - intros Htrue l s Hs. unfold Health_Readiness in Hs.
    rewrite Readiness_loop_fold in Hs.
    apply probeFold_lookup_inv in Hs as [[_ Hs]|(j & Hj & _ & ->)]; [done|].
    simpl. destruct (out j) as [err|] eqn:Hout; [|done].
    assert ((Health_Readiness p out).1.1 = false); [|congruence].
    apply Hrb. exists j, l. by rewrite Hout.
  - intros Hfalse Hnd. apply Hrb in Hfalse as (j & l & Hj & Hout).
    pose proof (NoDup_lookup_last _ _ _ Hnd Hj) as Hlast.
    destruct (lookup_split_last _ _ _ Hj Hlast) as [Hsplit Hlen].
    exists l, (readinessStatus (out j)). split.
    + rewrite (Hrres _ _ _ Hsplit Hlast). by rewrite Hlen.
    + by destruct (out j).
Qed.

(** X5.  For a declared threshold 0 <= T <= 2^31-1 and k consecutive failed
    Readiness calls on a fresh aggregator, k <= 2^31-1: the next Liveness
    probe reports the indicator UP exactly when k <= T, and DOWN with
    [ErrUnavailable] (overall result false) when k > T. *)
Theorem threshold_is_exact_boundary cs l T outs lout p :
  l ∈ cs → ReadinessThreshold l = Some T → (0 ≤ T ≤ MaxInt32)%Z →
  Forall (λ out, allCalls cs out l (λ o, o ≠ None)) outs →
  (Z.of_nat (length outs * occurrences l cs) ≤ MaxInt32)%Z →
  runProbes (ProbeReadiness <$> outs) (NewHealth ReadinessThreshold cs) = Some p →
  allCalls cs lout l (λ o, o = None) →
  ∃ b res, Health_Liveness p lout = Some (b, res, p) ∧
    ((Z.of_nat (length outs * occurrences l cs) ≤ T)%Z →
       res !! l = Some (mkHealthStatus HealthStatusUp None)) ∧
    ((T < Z.of_nat (length outs * occurrences l cs))%Z →
       b = false ∧
       res !! l = Some (mkHealthStatus HealthStatusDown (Some ErrUnavailable))).
Proof.
  intros Hin HT [Hpos Hmax] Hall Hk Hrun Hok.
  destruct (fresh_counter_fail ReadinessThreshold cs l T outs p Hin HT Hpos Hall Hrun)
    as (Hthr & Hcnt).
  destruct (runProbes_reachable ReadinessThreshold cs _ p Hrun) as (Hwf & Hcs & _ & _).
  destruct (allCalls_last cs lout l _ Hin Hok) as (pre & post & Hsplit & Hpost & Hout).
  destruct (Health_Liveness_spec p lout Hwf) as (b & res & Hlive & Hb & _ & Hres).
  exists b, res. split; [done|].
  rewrite (Hres pre l post); [|congruence|done].
  rewrite Hout. unfold livenessStatus.
  assert (Hexc : thresholdExceeded p l =
    (T <? Z.of_nat (length outs * occurrences l cs))%Z).
  { unfold thresholdExceeded, Int32.Load. rewrite Hthr, Hcnt.
    rewrite !int32_small; [done|unfold MinInt32, MaxInt32 in *; lia..]. }
  rewrite Hexc. split.
  - intros Hle. apply Z.ltb_ge in Hle. by rewrite Hle.
  - intros Hlt. apply Z.ltb_lt in Hlt. rewrite Hlt. split; [|done].
    apply Hb. exists (length pre), l. rewrite Hcs, Hsplit.
    split; [by rewrite list_lookup_middle|].
    rewrite Hout. unfold livenessOk. by rewrite Hexc, Hlt.
Qed.

(** X6.  Recovery: in any state reached from [NewHealth], for an indicator
    whose threshold is at most 2^31-1, a Readiness probe whose last call on
    the indicator succeeds makes the next Liveness probe report it UP again
    (its own Liveness calls returning nil), however many failures came
    before. *)
Theorem readiness_success_restores_liveness cs ps p out lout l T pre post :
  runProbes ps (NewHealth ReadinessThreshold cs) = Some p →
  maxNotReadyConfig p !! l = Some T → (T ≤ MaxInt32)%Z →
  cs = pre ++ l :: post → l ∉ post → out (length pre) = None →
  allCalls cs lout l (λ o, o = None) →
  ∃ b res,
    Health_Liveness (Health_Readiness p out).2 lout =
      Some (b, res, (Health_Readiness p out).2) ∧
    res !! l = Some (mkHealthStatus HealthStatusUp None).
Proof.
  intros Hrun HT Hmax Hsplit Hpost Hout Hok.
  destruct (runProbes_reachable ReadinessThreshold cs ps p Hrun) as (Hwf & Hcs & Hm & _).
  assert (HT0 : (0 ≤ T)%Z).
  { rewrite Hm in HT. by apply NewHealth_maxNotReadyConfig in HT as (_ & _ & ?). }
  destruct (Health_Readiness_frame p out) as (Hcs1 & Hm1 & _).
  pose proof (Health_Readiness_wf p out Hwf) as Hwf1.
  assert (Hcnt : notReadyCount (Health_Readiness p out).2 !! l = Some 0%Z).
  { unfold Health_Readiness. rewrite Hcs, Hsplit.
    apply Readiness_loop_counter_reset; [done..|]. apply Hwf. by eexists. }
  destruct (Health_Liveness_spec _ lout Hwf1) as (b & res & Hlive & _ & _ & Hres).
  exists b, res. split; [done|].
  rewrite (Hres pre l post); [|congruence|done].
  rewrite (Hok (length pre)) by by rewrite Hsplit, list_lookup_middle.
  unfold livenessStatus, thresholdExceeded, Int32.Load. rewrite Hm1, HT, Hcnt.
  rewrite int32_small by (unfold MinInt32, MaxInt32 in *; lia).
  assert (Hge : (T <? 0)%Z = false) by (apply Z.ltb_ge; lia). by rewrite Hge.
Qed.

(** X7.  The threshold is compared as an int32: a declared threshold whose
    32-bit value is negative (2^31, for instance) makes the Liveness probe on
    the fresh aggregator report the indicator DOWN with [ErrUnavailable],
    before any Readiness probe has failed. *)
Theorem truncated_threshold_fails_at_once cs l T lout :
  l ∈ cs → ReadinessThreshold l = Some T → (0 ≤ T)%Z → (int32 T < 0)%Z →
  allCalls cs lout l (λ o, o = None) →
  ∃ res, Health_Liveness (NewHealth ReadinessThreshold cs) lout =
           Some (false, res, NewHealth ReadinessThreshold cs) ∧
         res !! l = Some (mkHealthStatus HealthStatusDown (Some ErrUnavailable)).
Proof.
  intros Hin HT Hpos Hneg Hok.
  pose proof (NewHealth_wf ReadinessThreshold cs) as Hwf.
  assert (Hthr : maxNotReadyConfig (NewHealth ReadinessThreshold cs) !! l = Some T)
    by by apply NewHealth_maxNotReadyConfig.
  assert (Hcnt : notReadyCount (NewHealth ReadinessThreshold cs) !! l = Some 0%Z)
    by (apply NewHealth_notReadyCount; eauto).
  assert (Hexc : thresholdExceeded (NewHealth ReadinessThreshold cs) l = true).
  { unfold thresholdExceeded, Int32.Load. rewrite Hthr, Hcnt. by apply Z.ltb_lt. }
  destruct (allCalls_last cs lout l _ Hin Hok) as (pre & post & Hsplit & Hpost & Hout).
  subst cs.
  destruct (Health_Liveness_spec _ lout Hwf) as (b & res & Hlive & Hb & _ & Hres).
  assert (b = false) as ->.
  { apply Hb. exists (length pre), l. rewrite NewHealth_checkers.
    split; [by rewrite list_lookup_middle|].
    rewrite Hout. unfold livenessOk. by rewrite Hexc. }
  exists res. split; [done|].
  rewrite (Hres pre l post); [|by rewrite NewHealth_checkers|done].
  rewrite Hout. unfold livenessStatus. by rewrite Hexc.
Qed.
End AggregatorMore.

Section AggregatorIndependence.
Context {I : Type} `{Countable I}.
Implicit Types (p : Health I) (cs : list I) (l : I) (out : Outcomes).
Implicit Types (res : gmap I HealthStatus) (b : bool).

Lemma Readiness_loop_counter_ext out out' i cs b b' res res' p p' l :
  (∀ j, cs !! j = Some l → out (i + j) = None ↔ out' (i + j) = None) →
  notReadyCount p !! l = notReadyCount p' !! l →
  notReadyCount (Readiness_loop out i cs b res p).2 !! l =
  notReadyCount (Readiness_loop out' i cs b' res' p').2 !! l.
Proof.
  revert i b b' res res' p p'.
  induction cs as [|r cs IH]; intros i b b' res res' p p' Hagree Hc; simpl; [done|].
  assert (Htl : ∀ j, cs !! j = Some l → out (S i + j) = None ↔ out' (S i + j) = None).
  { intros j Hj. replace (S i + j) with (i + S j) by lia. by apply Hagree. }
  destruct (decide (r = l)) as [->|Hne].
  - specialize (Hagree 0 eq_refl). rewrite Nat.add_0_r in Hagree.
    rewrite <- Hc.
    destruct (out i) as [e|], (out' i) as [e'|];
      try (by destruct Hagree as [H1 H2]; (discriminate (H1 eq_refl) || discriminate (H2 eq_refl)));
      destruct (notReadyCount p !! l) as [cnt|] eqn:Hp;
      apply IH; try done; simpl; rewrite ?lookup_insert_eq; try done;
      by rewrite <- Hc.
  - destruct (out i), (out' i);
      destruct (notReadyCount p !! r), (notReadyCount p' !! r);
      apply IH; try done; simpl; by rewrite ?lookup_insert_ne.
Qed.

(** X8.  What a Readiness probe leaves in the cell of an indicator depends
    only on what the cell held and on which of the calls on this indicator
    failed: not on the errors themselves, not on the other indicators'
    calls, not on their cells. *)
Theorem readiness_counter_is_local p p' out out' l :
  checkers p = checkers p' →
  (∀ j, checkers p !! j = Some l → out j = None ↔ out' j = None) →
  notReadyCount p !! l = notReadyCount p' !! l →
  notReadyCount (Health_Readiness p out).2 !! l =
  notReadyCount (Health_Readiness p' out').2 !! l.
Proof.
  intros Hcs Hagree Hc. unfold Health_Readiness. rewrite <- Hcs.
  by apply Readiness_loop_counter_ext.
Qed.

(** X9.  When the Readiness probe returns true, the cell of every
    registered indicator that has one holds 0 afterwards. *)
Theorem ready_probe_clears_counters p out l :
  (Health_Readiness p out).1.1 = true →
  l ∈ checkers p → is_Some (notReadyCount p !! l) →
  notReadyCount (Health_Readiness p out).2 !! l = Some 0%Z.
Proof.
  intros Htrue Hin Hsome.
  destruct (Health_Readiness_spec p out) as (Hflag & _ & _).
  apply list_elem_of_split_r in Hin as (pre & post & Hsplit & Hpost).
  unfold Health_Readiness. rewrite Hsplit.
  apply Readiness_loop_counter_reset; [done| |done].
  destruct (out (0 + length pre)) as [err|] eqn:Hout; [|done].
  assert ((Health_Readiness p out).1.1 = false); [|congruence].
  apply Hflag. exists (length pre), l. rewrite Hsplit.
  split; [by rewrite list_lookup_middle|]. simpl in Hout. by rewrite Hout.
Qed.
End AggregatorIndependence.

(** ** The aggregate flags *)

Section AggregateFlags.
Context {I : Type} `{Countable I}.
Implicit Types (p : Health I) (cs : list I) (l : I) (rout lout : Outcomes).
Implicit Types (res : gmap I HealthStatus) (b : bool).

Lemma Health_Liveness_fold p out b res p' :
  Health_Liveness p out = Some (b, res, p') →
  res = (probeFold (λ j l, livenessStatus p l (out j))
                   (λ j l, livenessOk p l (out j)) 0 (checkers p) true ∅).2.
Proof.
  intros Hlive. apply Liveness_loop_Some in Hlive.
  injection Hlive as Hfold _. by rewrite <- Hfold.
Qed.

(** C3 (amended).  On an aggregator whose thresholds all fit an int32: the
    Readiness probe returns false exactly when one of its calls returns an
    error, and the Liveness probe returns false exactly when one of its
    calls returns an error or is made on an indicator whose counter exceeds
    its threshold; otherwise they return true.  When the registered
    indicators are pairwise distinct this is read off the detail map: the
    probe returns false exactly when the map has an entry that is
    UNAVAILABLE (Readiness) or DOWN (Liveness). *)
Theorem C3_aggregate_flags p rout lout :
  Health_wf p →
  (∀ l T, maxNotReadyConfig p !! l = Some T → (MinInt32 ≤ T ≤ MaxInt32)%Z) →
  (((Health_Readiness p rout).1.1 = false ↔
      ∃ i l, checkers p !! i = Some l ∧ rout i ≠ None) ∧
   (NoDup (checkers p) →
      ((Health_Readiness p rout).1.1 = false ↔
         ∃ l s, (Health_Readiness p rout).1.2 !! l = Some s ∧
                Status s = HealthUnavailable))) ∧
  ∃ b res, Health_Liveness p lout = Some (b, res, p) ∧
    (b = false ↔
       ∃ i l, checkers p !! i = Some l ∧
         (lout i ≠ None ∨
          ∃ T c, maxNotReadyConfig p !! l = Some T ∧
                 notReadyCount p !! l = Some c ∧ (T < c)%Z)) ∧
    (NoDup (checkers p) →
       (b = false ↔ ∃ l s, res !! l = Some s ∧ Status s = HealthStatusDown)).
Proof.
  intros Hwf Hfit.
  destruct (probe_flags_per_call p rout Hwf) as [Hready _].
  destruct (probe_flags_per_call p lout Hwf) as [_ (b & res & Hlive & Hcall)].
  destruct (Health_Readiness_spec p rout) as (_ & _ & Hrres).
  destruct (Health_Liveness_spec p lout Hwf) as (b' & res' & Hlive' & Hb & _ & Hres).
  rewrite Hlive in Hlive'. injection Hlive' as <- <-.
  split; [split; [done|]|].
  - intros Hnd. rewrite Hready. split.
    + intros (j & l & Hj & Hout).
      pose proof (NoDup_lookup_last _ _ _ Hnd Hj) as Hlast.
      destruct (lookup_split_last _ _ _ Hj Hlast) as [Hsplit Hlen].
      exists l, (readinessStatus (rout j)). split.
      * rewrite (Hrres _ _ _ Hsplit Hlast). by rewrite Hlen.
      * by destruct (rout j).
    + intros (l & s & Hs & Hst). unfold Health_Readiness in Hs.
      rewrite Readiness_loop_fold in Hs.
      apply probeFold_lookup_inv in Hs as [[_ Hs]|(j & Hj & _ & ->)]; [done|].
      exists j, l. split; [done|]. simpl in Hst. by destruct (rout j).
  - exists b, res. split_and!; [done| |].
    + rewrite Hcall. split; intros (i & l & Hi & Hcase); exists i, l;
        (split; [done|]); (destruct Hcase as [?|(T & c & HT & Hc & Hlt)]; [by left|]);
        right; exists T, c; (split_and!; [done..|]);
        pose proof (Hfit l T HT) as Hr; rewrite int32_small in *; done.
    + intros Hnd. rewrite Hb. split.
      * intros (j & l & Hj & Hok).
        pose proof (NoDup_lookup_last _ _ _ Hnd Hj) as Hlast.
        destruct (lookup_split_last _ _ _ Hj Hlast) as [Hsplit Hlen].
        exists l, (livenessStatus p l (lout j)). split.
        -- rewrite (Hres _ _ _ Hsplit Hlast). by rewrite Hlen.
        -- unfold livenessOk in Hok. unfold livenessStatus.
           destruct (lout j); [done|]. by destruct (thresholdExceeded p l).
      * intros (l & s & Hs & Hst).
        rewrite (Health_Liveness_fold _ _ _ _ _ Hlive) in Hs.
        apply probeFold_lookup_inv in Hs as [[_ Hs]|(j & Hj & _ & ->)]; [done|].
        exists j, l. split; [done|].
        unfold livenessStatus in Hst. unfold livenessOk. simpl in Hst.
        destruct (lout j); [done|]. by destruct (thresholdExceeded p l).
Qed.
End AggregateFlags.

(** ** Facts about the required-field check *)

Section RequiredFacts.
Variable ToUpper : string → string.

Lemma valsLoop_Some body vs e :
  valsLoop body vs = Returns (Some e) →
  (e = errNotPointer ∧ NotPointer ∈ vs) ∨
  ∃ ptr, ptr ∈ vs ∧ body ptr = Returns (Some e).
Proof.
  induction vs as [|ptr vs IH]; simpl; [done|].
  destruct ptr; try done.
  - intros [= <-]. left. split; [done|]. apply list_elem_of_here.
  - destruct (body NilPointer) as [[e'|]|] eqn:Hb; [| |done].
    + intros [= ->]. right. exists NilPointer. split; [apply list_elem_of_here|done].
    + intros Hrest. destruct (IH Hrest) as [[-> Hin]|(ptr & Hin & Hptr)].
      * left. split; [done|]. by apply list_elem_of_further.
      * right. exists ptr. split; [by apply list_elem_of_further|done].
  - destruct (body (PtrField path)) as [[e'|]|] eqn:Hb; [| |done].
    + intros [= ->]. right. exists (PtrField path). split; [apply list_elem_of_here|done].
    + intros Hrest. destruct (IH Hrest) as [[-> Hin]|(ptr & Hin & Hptr)].
      * left. split; [done|]. by apply list_elem_of_further.
      * right. exists ptr. split; [by apply list_elem_of_further|done].
  - destruct (body PtrOther) as [[e'|]|] eqn:Hb; [| |done].
    + intros [= ->]. right. exists PtrOther. split; [apply list_elem_of_here|done].
    + intros Hrest. destruct (IH Hrest) as [[-> Hin]|(ptr & Hin & Hptr)].
      * left. split; [done|]. by apply list_elem_of_further.
      * right. exists ptr. split; [by apply list_elem_of_further|done].
Qed.

Lemma valsLoop_None body vs ptr :
  valsLoop body vs = Returns None → ptr ∈ vs → body ptr = Returns None.
Proof.
  induction vs as [|ptr' vs IH]; simpl; intros Hloop Hin.
  - by apply elem_of_nil in Hin.
  - apply elem_of_cons in Hin as [->|Hin].
    + destruct ptr'; try done; by destruct (body _) as [[?|]|].
    + destruct ptr'; try done;
        match type of Hloop with
        | context [body ?x] => destruct (body x) as [[?|]|]
        end; try done; by apply IH.
Qed.

Lemma valsLoop_Panics body vs :
  valsLoop body vs = Panics →
  NilInterface ∈ vs ∨ ∃ ptr, ptr ∈ vs ∧ body ptr = Panics.
Proof.
  induction vs as [|ptr vs IH]; simpl; [done|].
  destruct ptr; try done.
  - intros _. left. apply list_elem_of_here.
  - destruct (body NilPointer) as [[e'|]|] eqn:Hb; [done| |].
    + intros Hrest. destruct (IH Hrest) as [Hin|(ptr & Hin & Hptr)].
      * left. by apply list_elem_of_further.
      * right. exists ptr. split; [by apply list_elem_of_further|done].
    + intros _. right. exists NilPointer. split; [apply list_elem_of_here|done].
  - destruct (body (PtrField path)) as [[e'|]|] eqn:Hb; [done| |].
    + intros Hrest. destruct (IH Hrest) as [Hin|(ptr & Hin & Hptr)].
      * left. by apply list_elem_of_further.
      * right. exists ptr. split; [by apply list_elem_of_further|done].
    + intros _. right. exists (PtrField path). split; [apply list_elem_of_here|done].
  - destruct (body PtrOther) as [[e'|]|] eqn:Hb; [done| |].
    + intros Hrest. destruct (IH Hrest) as [Hin|(ptr & Hin & Hptr)].
      * left. by apply list_elem_of_further.
      * right. exists ptr. split; [by apply list_elem_of_further|done].
    + intros _. right. exists PtrOther. split; [apply list_elem_of_here|done].
Qed.

Lemma fieldsLoop_Some nested base ptr i fs e :
  fieldsLoop ToUpper nested base ptr i fs = Returns (Some e) →
  ∃ j f v, fs !! j = Some (f, v) ∧
    ((∃ fs', v = Struct fs') ∧ nested (i + j) v = Returns (Some e) ∨
     ptr = PtrField (base ++ [i + j]) ∧ IsZero v = true ∧ e = missingError ToUpper f).
Proof.
  revert i. induction fs as [|[f v] fs IH]; intros i; simpl; [done|].
  destruct (exported f); simpl; [|done].
  assert (Hnext : fieldsLoop ToUpper nested base ptr (S i) fs = Returns (Some e) →
    ∃ j f0 v0, ((f, v) :: fs) !! j = Some (f0, v0) ∧
      ((∃ fs', v0 = Struct fs') ∧ nested (i + j) v0 = Returns (Some e) ∨
       ptr = PtrField (base ++ [i + j]) ∧ IsZero v0 = true ∧ e = missingError ToUpper f0)).
  { intros Hrest. destruct (IH _ Hrest) as (j & f0 & v0 & Hj & Hcase).
    exists (S j), f0, v0. split; [done|].
    by replace (i + S j) with (S i + j) by lia. }
  assert (Hhere : ptr = PtrField (base ++ [i]) → IsZero v = true →
    Returns (Some (missingError ToUpper f)) = Returns (Some e) →
    ∃ j f0 v0, ((f, v) :: fs) !! j = Some (f0, v0) ∧
      ((∃ fs', v0 = Struct fs') ∧ nested (i + j) v0 = Returns (Some e) ∨
       ptr = PtrField (base ++ [i + j]) ∧ IsZero v0 = true ∧ e = missingError ToUpper f0)).
  { intros -> Hz [= <-]. exists 0, f, v. split; [done|]. right.
    by rewrite Nat.add_0_r. }
  assert (Hdirect :
    match ptr with
    | PtrField q =>
      if decide (q = base ++ [i]) then
        if IsZero v then Returns (Some (missingError ToUpper f))
        else fieldsLoop ToUpper nested base ptr (S i) fs
      else fieldsLoop ToUpper nested base ptr (S i) fs
    | PtrOther => fieldsLoop ToUpper nested base ptr (S i) fs
    | _ => Panics
    end = Returns (Some e) →
    ∃ j f0 v0, ((f, v) :: fs) !! j = Some (f0, v0) ∧
      ((∃ fs', v0 = Struct fs') ∧ nested (i + j) v0 = Returns (Some e) ∨
       ptr = PtrField (base ++ [i + j]) ∧ IsZero v0 = true ∧ e = missingError ToUpper f0)).
  { destruct ptr as [| | |q|]; try done.
    destruct (decide (q = base ++ [i])) as [->|]; [|done].
    destruct (IsZero v) eqn:Hz; [|done]. by apply Hhere. }
  destruct v as [z|fs0]; [done|].
  destruct (nested i (Struct fs0)) as [[e'|]|] eqn:Hn; [| done | done].
  intros [= ->]. exists 0, f, (Struct fs0). split; [done|]. left.
  rewrite Nat.add_0_r. split; [by eexists|done].
Qed.

Lemma fieldsLoop_None nested base ptr i fs j f v :
  fieldsLoop ToUpper nested base ptr i fs = Returns None →
  fs !! j = Some (f, v) →
  ((∃ fs', v = Struct fs') → nested (i + j) v = Returns None) ∧
  (ptr = PtrField (base ++ [i + j]) → IsZero v = false).
Proof.
  revert i j. induction fs as [|[f0 v0] fs IH]; intros i j; simpl; [done|].
  destruct (exported f0); simpl; [|done].
  intros Hloop Hj.
  assert (Hnested : (∃ fs', v0 = Struct fs') → nested i v0 = Returns None).
  { intros [fs' ->]. by destruct (nested i (Struct fs')) as [[?|]|]. }
  assert (Hafter :
    match ptr with
    | PtrField q =>
      if decide (q = base ++ [i]) then
        if IsZero v0 then Returns (Some (missingError ToUpper f0))
        else fieldsLoop ToUpper nested base ptr (S i) fs
      else fieldsLoop ToUpper nested base ptr (S i) fs
    | PtrOther => fieldsLoop ToUpper nested base ptr (S i) fs
    | _ => Panics
    end = Returns None).
  { destruct v0 as [z|fs0]; [done|]. by destruct (nested i (Struct fs0)) as [[?|]|]. }
  clear Hloop.
  assert (Hrest : fieldsLoop ToUpper nested base ptr (S i) fs = Returns None).
  { destruct ptr as [| | |q|]; try done.
    destruct (decide (q = base ++ [i])); [|done]. by destruct (IsZero v0). }
  destruct j as [|j]; simpl in Hj.
  - injection Hj as -> ->. rewrite Nat.add_0_r. split; [done|].
    intros ->. rewrite decide_True in Hafter by done. by destruct (IsZero v).
  - replace (i + S j) with (S i + j) by lia. by apply IH.
Qed.

Lemma fieldsLoop_Panics nested base ptr i fs :
  validPointer ptr →
  fieldsLoop ToUpper nested base ptr i fs = Panics →
  ∃ j f v, fs !! j = Some (f, v) ∧
    (exported f = false ∨ (∃ fs', v = Struct fs') ∧ nested (i + j) v = Panics).
Proof.
  intros Hptr. revert i. induction fs as [|[f v] fs IH]; intros i; simpl; [done|].
  destruct (exported f) eqn:Hexp; simpl.
  2:{ intros _. exists 0, f, v. split; [done|]. by left. }
  assert (Hnext : fieldsLoop ToUpper nested base ptr (S i) fs = Panics →
    ∃ j f0 v0, ((f, v) :: fs) !! j = Some (f0, v0) ∧
      (exported f0 = false ∨ (∃ fs', v0 = Struct fs') ∧ nested (i + j) v0 = Panics)).
  { intros Hrest. destruct (IH _ Hrest) as (j & f0 & v0 & Hj & Hcase).
    exists (S j), f0, v0. split; [done|].
    by replace (i + S j) with (S i + j) by lia. }
  assert (Hdirect :
    match ptr with
    | PtrField q =>
      if decide (q = base ++ [i]) then
        if IsZero v then Returns (Some (missingError ToUpper f))
        else fieldsLoop ToUpper nested base ptr (S i) fs
      else fieldsLoop ToUpper nested base ptr (S i) fs
    | PtrOther => fieldsLoop ToUpper nested base ptr (S i) fs
    | _ => Panics
    end = Panics →
    ∃ j f0 v0, ((f, v) :: fs) !! j = Some (f0, v0) ∧
      (exported f0 = false ∨ (∃ fs', v0 = Struct fs') ∧ nested (i + j) v0 = Panics)).
  { destruct ptr as [| | |q|]; try done.
    destruct (decide (q = base ++ [i])); [|done]. by destruct (IsZero v). }
  destruct v as [z|fs0]; [done|].
  destruct (nested i (Struct fs0)) as [[e'|]|] eqn:Hn; [done|done|].
  intros _. exists 0, f, (Struct fs0). split; [done|]. right.
  rewrite Nat.add_0_r. split; [by eexists|done].
Qed.

Lemma checkRequired_unfold base c vals :
  checkRequired ToUpper base c vals =
  valsLoop (λ ptr,
    match c with
    | Scalar _ => Panics
    | Struct fs =>
      fieldsLoop ToUpper (λ i v, checkRequired ToUpper (base ++ [i]) v vals) base ptr 0 fs
    end) vals.
Proof. by destruct c. Qed.

Lemma fieldAt_cons fs j q f v :
  q ≠ [] → fs !! j = Some (f, v) →
  fieldAt (Struct fs) (j :: q) = fieldAt v q.
Proof. intros Hq Hj. simpl. rewrite Hj. by destruct q. Qed.

Lemma fieldAt_nonempty c q : is_Some (fieldAt c q) → q ≠ [].
Proof. intros [? Hq] ->. by destruct c. Qed.

(** An error returned by [checkRequired] is the one for a non-pointer
    entry, or it names a zero-valued field that one of the entries points
    to. *)
Lemma checkRequired_Some c base vals e :
  checkRequired ToUpper base c vals = Returns (Some e) →
  (e = errNotPointer ∧ NotPointer ∈ vals) ∨
  ∃ q f v, PtrField (base ++ q) ∈ vals ∧ fieldAt c q = Some (f, v) ∧
           IsZero v = true ∧ e = missingError ToUpper f.
Proof.
  revert base. induction c as [z|fs IH] using value_nested_ind; intros base;
    rewrite checkRequired_unfold; intros Hloop;
    apply valsLoop_Some in Hloop as [?|(ptr & Hin & Hbody)]; [by left|done|by left|].
  apply fieldsLoop_Some in Hbody as (j & f & v & Hj & [[Hstruct Hnested]| (-> & Hz & ->)]).
  - rewrite Forall_lookup in IH. specialize (IH j (f, v) Hj (base ++ [j])).
    simpl in IH, Hnested. destruct (IH Hnested) as [?|(q & f' & v' & Hq & Hat & Hz & ->)];
      [by left|]. right.
    exists (j :: q), f', v'. split_and!; [|  |done..].
    + by rewrite <- app_assoc in Hq.
    + rewrite (fieldAt_cons fs j q f v); [done| |done].
      apply (fieldAt_nonempty v). by eexists.
  - right. exists [j], f, v. simpl. rewrite Hj. done.
Qed.

(** When [checkRequired] returns nil, every field an entry points to is
    non-zero. *)
Lemma checkRequired_None c base vals q f v :
  checkRequired ToUpper base c vals = Returns None →
  PtrField (base ++ q) ∈ vals → fieldAt c q = Some (f, v) →
  IsZero v = false.
Proof.
  revert base q. induction c as [z|fs IH] using value_nested_ind; intros base q;
    rewrite checkRequired_unfold; intros Hloop Hin Hat.
  - by destruct q.
  - destruct q as [|j q]; [done|].
    pose proof (valsLoop_None _ _ _ Hloop Hin) as Hbody. simpl in Hbody.
    simpl in Hat. destruct (fs !! j) as [[f0 v0]|] eqn:Hj; [|done].
    destruct (fieldsLoop_None _ _ _ _ _ _ _ _ Hbody Hj) as [Hnested Hdirect].
    simpl in Hnested, Hdirect.
    destruct q as [|j' q'].
    + injection Hat as <- <-. by apply Hdirect.
    + rewrite Forall_lookup in IH. specialize (IH j (f0, v0) Hj). simpl in IH.
      apply (IH (base ++ [j]) (j' :: q')); [|by rewrite <- app_assoc|done].
      apply Hnested. destruct v0 as [z|fs0]; [done|by eexists].
Qed.

(** With pointers only and exported fields only, [checkRequired] on a
    struct does not panic. *)
Lemma checkRequired_Panics c base vals :
  allExported c = true → Forall validPointer vals → (∃ fs, c = Struct fs) →
  checkRequired ToUpper base c vals ≠ Panics.
Proof.
  intros Hexp Hvals. revert base Hexp.
  induction c as [z|fs IH] using value_nested_ind; intros base Hexp [fs0 Hc]; [done|].
  rewrite checkRequired_unfold. intros Hloop.
  rewrite Forall_forall in Hvals.
  apply valsLoop_Panics in Hloop as [Hnil|(ptr & Hin & Hbody)].
  { by apply Hvals in Hnil. }
  apply fieldsLoop_Panics in Hbody as (j & f & v & Hj & Hcase); [|by apply Hvals].
  simpl in Hexp. rewrite forallb_forall in Hexp.
  assert (Hfv : exported f && allExported v = true).
  { apply (Hexp (f, v)). apply list_elem_of_In. by eapply list_elem_of_lookup_2. }
  apply andb_true_iff in Hfv as [Hf Hv].
  destruct Hcase as [Hno|[Hstruct Hnested]]; [congruence|].
  rewrite Forall_lookup in IH. by apply (IH j (f, v) Hj (base ++ [j])).
Qed.

(** C9 (amended).  For a configuration struct whose fields are all
    exported and a list of required values made of non-nil pointers: when no
    pointed-to field of the configuration is zero the check returns nil, and
    when one is zero it returns an error that names one zero-valued required
    field only (the first it meets), by its Go name and by its configuration
    name, which is the json tag as written, else the mapstructure tag, else
    the Go name. *)
Theorem C9_required_check c requireds :
  (∃ fs, c = Struct fs) → allExported c = true → Forall validPointer requireds →
  ((∀ q f v, PtrField q ∈ requireds → fieldAt c q = Some (f, v) → IsZero v = false) →
   LoadJSONConfig_required ToUpper c requireds = Returns None) ∧
  ((∃ q f v, PtrField q ∈ requireds ∧ fieldAt c q = Some (f, v) ∧ IsZero v = true) →
   ∃ q f v, PtrField q ∈ requireds ∧ fieldAt c q = Some (f, v) ∧ IsZero v = true ∧
     LoadJSONConfig_required ToUpper c requireds =
       Returns (Some (missingError ToUpper f))).
Proof.
  intros Hstruct Hexp Hvals.
  assert (Hnp : NotPointer ∉ requireds).
  { intros Hin. rewrite Forall_forall in Hvals. by apply Hvals in Hin. }
  pose proof (checkRequired_Panics c [] requireds Hexp Hvals Hstruct) as Hpanic.
  unfold LoadJSONConfig_required. split.
  - intros Hall. destruct (decide (length requireds = 0)); [done|].
    destruct (checkRequired ToUpper [] c requireds) as [[e|]|] eqn:Hres; [|done..].
    apply checkRequired_Some in Hres as [[_ ?]|(q & f & v & Hin & Hat & Hz & _)]; [done|].
    simpl in Hin. by rewrite (Hall q f v Hin Hat) in Hz.
  - intros (q & f & v & Hin & Hat & Hz).
    destruct (decide (length requireds = 0)) as [Hlen|_].
    { destruct requireds; [by apply elem_of_nil in Hin|done]. }
    destruct (checkRequired ToUpper [] c requireds) as [[e|]|] eqn:Hres; [| |done].
    + apply checkRequired_Some in Hres as [[_ ?]|(q' & f' & v' & Hin' & Hat' & Hz' & ->)];
        [done|]. by exists q', f', v'.
    + by rewrite (checkRequired_None c [] requireds q f v Hres Hin Hat) in Hz.
Qed.
End RequiredFacts.

(** ** Further properties of the required-field check *)

Section RequiredMore.
Variable ToUpper : string → string.

Lemma valsLoop_None_kinds body vs :
  valsLoop body vs = Returns None → (NilInterface ∉ vs) ∧ (NotPointer ∉ vs).
Proof.
  induction vs as [|ptr vs IH]; simpl; intros Hloop.
  - split; apply not_elem_of_nil.
  - rewrite !not_elem_of_cons.
    destruct ptr; try done;
      match type of Hloop with
      | context [body ?x] => destruct (body x) as [[?|]|]
      end; try done; destruct (IH Hloop); done.
Qed.

Lemma valsLoop_skip body pre vs :
  Forall (λ ptr, ptr ≠ NilInterface ∧ ptr ≠ NotPointer ∧ body ptr = Returns None) pre →
  valsLoop body (pre ++ vs) = valsLoop body vs.
Proof.
  induction 1 as [|ptr pre (Hn & Hp & Hb) _ IH]; simpl; [done|].
  destruct ptr; try done; by rewrite Hb.
Qed.

Lemma fieldsLoop_None_exported nested base ptr i fs j f v :
  fieldsLoop ToUpper nested base ptr i fs = Returns None →
  fs !! j = Some (f, v) → exported f = true.
Proof.
  revert i j. induction fs as [|[f0 v0] fs IH]; intros i j; simpl; [done|].
  destruct (exported f0) eqn:Hexp; simpl; [|done].
  intros Hloop Hj. destruct j as [|j]; simpl in Hj; [by injection Hj as <- _|].
  apply (IH (S i) j); [|done].
  destruct (match v0 with Struct _ => nested i v0 | Scalar _ => Returns None end)
    as [[?|]|]; try done.
  destruct ptr as [| | |q|]; try done.
  destruct (decide (q = base ++ [i])); [|done]. by destruct (IsZero v0).
Qed.

Lemma fieldsLoop_NilPointer nested base i fs :
  fs ≠ [] → fieldsLoop ToUpper nested base NilPointer i fs ≠ Returns None.
Proof.
  destruct fs as [|[f v] fs]; [done|]. intros _. simpl.
  destruct (exported f); simpl; [|done].
  by destruct (match v with Struct _ => nested i v | Scalar _ => Returns None end)
    as [[?|]|].
Qed.

Lemma checkRequired_None_exported c base vals :
  vals ≠ [] → checkRequired ToUpper base c vals = Returns None →
  allExported c = true.
Proof.
  intros Hvals. revert base.
  induction c as [z|fs IH] using value_nested_ind; intros base; [done|].
  rewrite checkRequired_unfold. intros Hloop.
  destruct vals as [|ptr vals]; [done|].
  pose proof (valsLoop_None _ _ ptr Hloop (list_elem_of_here _ _)) as Hbody.
  simpl in Hbody. simpl. apply forallb_forall. intros [f v] Hin.
  apply list_elem_of_In, list_elem_of_lookup in Hin as [j Hj].
  apply andb_true_iff. split.
  - by eapply fieldsLoop_None_exported.
  - destruct v as [z|fs0]; [done|].
    destruct (fieldsLoop_None _ _ _ _ _ _ _ _ _ Hbody Hj) as [Hnested _].
    rewrite Forall_lookup in IH.
    apply (IH j _ Hj (base ++ [j])). apply Hnested. by eexists.
Qed.

(** X10.  When the required-field check returns nil, every required value
    that points to a field of the configuration points to a non-zero field:
    no unset required field of the configuration goes unnoticed, whatever
    else the list holds. *)
Theorem required_check_nil_is_sound c requireds q f v :
  LoadJSONConfig_required ToUpper c requireds = Returns None →
  PtrField q ∈ requireds → fieldAt c q = Some (f, v) →
  IsZero v = false.
Proof.
  unfold LoadJSONConfig_required. intros Hres Hin Hat.
  destruct (decide (length requireds = 0)) as [Hlen|_].
  { destruct requireds; [by apply elem_of_nil in Hin|done]. }
  by apply (checkRequired_None ToUpper c [] requireds q f v).
Qed.

(** X11.  An error returned by the required-field check is either the one
    for a required value that is not a pointer, such a value being in the
    list, or the error built for a field of the configuration that is both
    pointed to by a required value and zero: a field that is set, or that is
    not required, is never reported. *)
Theorem required_check_error_is_sound c requireds e :
  LoadJSONConfig_required ToUpper c requireds = Returns (Some e) →
  (e = errNotPointer ∧ NotPointer ∈ requireds) ∨
  ∃ q f v, PtrField q ∈ requireds ∧ fieldAt c q = Some (f, v) ∧
           IsZero v = true ∧ e = missingError ToUpper f.
Proof.
  unfold LoadJSONConfig_required. intros Hres.
  destruct (decide (length requireds = 0)); [done|].
  by apply checkRequired_Some in Hres.
Qed.

(** X12.  A list of required values that holds a nil interface or a value
    that is not a pointer is never accepted, and neither is one that holds a
    nil pointer unless the configuration is a struct without fields: the
    check returns an error or panics. *)
Theorem malformed_required_values_rejected c requireds :
  NilInterface ∈ requireds ∨ NotPointer ∈ requireds ∨
  (NilPointer ∈ requireds ∧ c ≠ Struct []) →
  LoadJSONConfig_required ToUpper c requireds ≠ Returns None.
Proof.
  unfold LoadJSONConfig_required. intros Hbad.
  destruct (decide (length requireds = 0)) as [Hlen|_].
  { destruct requireds; [|done].
    destruct Hbad as [H|[H|[H _]]]; by apply elem_of_nil in H. }
  rewrite checkRequired_unfold. intros Hloop.
  destruct (valsLoop_None_kinds _ _ Hloop) as [Hni Hnp].
  destruct Hbad as [?|[?|[Hin Hc]]]; [done..|].
  pose proof (valsLoop_None _ _ _ Hloop Hin) as Hbody. simpl in Hbody.
  destruct c as [z|fs]; [done|].
  apply fieldsLoop_NilPointer in Hbody; [done|]. by intros ->.
Qed.

(** X13.  A configuration with a field of unexported name, at any depth of
    structs nested by value, never passes the check once something is
    required: the check returns an error or panics. *)
Theorem unexported_field_never_passes c requireds :
  requireds ≠ [] → allExported c = false →
  LoadJSONConfig_required ToUpper c requireds ≠ Returns None.
Proof.
  unfold LoadJSONConfig_required. intros Hne Hexp.
  destruct (decide (length requireds = 0)) as [Hlen|_].
  { by destruct requireds. }
  intros Hres. apply checkRequired_None_exported in Hres; [congruence|done].
Qed.

(** X14.  On a struct whose fields are exported and none a struct, the
    error names the field of the first required value, in the order of
    [RequiredValues], that points to a zero field. *)
Theorem flat_config_reports_first_required fs pre j post f v :
  Forall (λ fv, exported fv.1 = true ∧ ∃ z, fv.2 = Scalar z) fs →
  Forall validPointer pre →
  (∀ q f' v', PtrField q ∈ pre → fieldAt (Struct fs) q = Some (f', v') →
              IsZero v' = false) →
  fs !! j = Some (f, v) → IsZero v = true →
  LoadJSONConfig_required ToUpper (Struct fs) (pre ++ PtrField [j] :: post) =
    Returns (Some (missingError ToUpper f)).
Proof.
  intros Hflat Hpre Hset Hj Hz. unfold LoadJSONConfig_required.
  destruct (decide (length (pre ++ PtrField [j] :: post) = 0)) as [Hlen|_].
  { rewrite length_app in Hlen. simpl in Hlen. lia. }
  rewrite checkRequired_unfold.
  set (body := λ ptr : anyVal,
    fieldsLoop ToUpper
      (λ i v0, checkRequired ToUpper ([] ++ [i]) v0 (pre ++ PtrField [j] :: post))
      [] ptr 0 fs).
  assert (Hflat' : ∀ k f0 v0, fs !! k = Some (f0, v0) →
    exported f0 = true ∧ ∃ z, v0 = Scalar z).
  { intros k f0 v0 Hk. rewrite Forall_lookup in Hflat. apply (Hflat k (f0, v0) Hk). }
  assert (Hcases : ∀ ptr, validPointer ptr →
    body ptr = Returns None ∨
    ∃ k f0 v0, fs !! k = Some (f0, v0) ∧ ptr = PtrField [k] ∧ IsZero v0 = true ∧
               body ptr = Returns (Some (missingError ToUpper f0))).
  { intros ptr Hptr. destruct (body ptr) as [[e|]|] eqn:Hb; [|by left|].
    - right. apply fieldsLoop_Some in Hb
        as (k & f0 & v0 & Hk & [[[fs' ->] _]|(-> & Hz0 & ->)]).
      + by destruct (Hflat' _ _ _ Hk) as [_ [z ?]].
      + by exists k, f0, v0.
    - apply fieldsLoop_Panics in Hb as (k & f0 & v0 & Hk & [Hno|[[fs' ->] _]]);
        [|by destruct (Hflat' _ _ _ Hk) as [_ [z ?]]|done].
      destruct (Hflat' _ _ _ Hk) as [? _]. congruence. }
  rewrite valsLoop_skip.
  - simpl. fold (body (PtrField [j])).
    destruct (Hcases (PtrField [j]) I) as [Hnone|(k & f0 & v0 & Hk & Heq & _ & Hb)].
    + destruct (fieldsLoop_None _ _ _ _ _ _ _ _ _ Hnone Hj) as [_ Hdirect].
      rewrite Hdirect in Hz; done.
    + injection Heq as <-. rewrite Hj in Hk. injection Hk as <- <-. by rewrite Hb.
  - rewrite Forall_forall in Hpre. apply Forall_forall. intros ptr Hin.
    pose proof (Hpre ptr Hin) as Hptr.
    split_and!; [by intros ->|by intros ->|].
    destruct (Hcases ptr Hptr) as [?|(k & f0 & v0 & Hk & -> & Hz0 & _)]; [done|].
    rewrite (Hset [k] f0 v0 Hin) in Hz0; [done|]. simpl. by rewrite Hk.
Qed.
End RequiredMore.

(** ** Properties of the loader *)

Section LoaderFacts.
Variable ToUpper : string → string.

Lemma file_location_prefix path : String.prefix "file:" ("file:" +:+ path) = true.
Proof. by destruct path. Qed.

Lemma file_location_slice path : sliceFrom 5 ("file:" +:+ path) = path.
Proof. reflexivity. Qed.

(** X15.  The location [CoreEnv.AppConfigLocationValue] returns is read
    back by [LoadJSONConfigInto] as a file, and the file merged is the
    absolute path [filepath.Abs] gave, whatever that path is: with the other
    steps succeeding, the result is nil, unless merging that file fails for
    another reason than the file not existing. *)
Theorem core_env_location_round_trip Join Abs lib automaticEnv path :
  Abs (Join ["."; ConfigFolder; ConfigFile]) = inl path →
  json_Marshal lib = None → viper_ReadConfig lib = None →
  viper_Unmarshal lib = None →
  (CoreEnv_AppConfigLocationValue Join Abs).2 = None ∧
  LoadJSONConfigInto lib true automaticEnv (CoreEnv_AppConfigLocationValue Join Abs).1 =
    match viper_MergeInConfig lib path with
    | Some (err, false) => Some err
    | _ => None
    end.
Proof.
  intros Habs Hm Hr Hu. unfold CoreEnv_AppConfigLocationValue. rewrite Habs.
  split; [done|]. unfold LoadJSONConfigInto. cbn [fst negb].
  rewrite Hm, Hr, file_location_prefix, file_location_slice.
  destruct (viper_MergeInConfig lib path) as [[err [|]]|]; simpl; by rewrite ?Hu.
Qed.

(** X16.  A configuration file that does not exist is as good as no file:
    when merging the file of a file: location fails because the file does
    not exist, the result is that of loading with the empty location. *)
Theorem missing_file_is_no_file lib cfgIsPointer automaticEnv path err :
  viper_MergeInConfig lib path = Some (err, true) →
  LoadJSONConfigInto lib cfgIsPointer automaticEnv ("file:" +:+ path) =
  LoadJSONConfigInto lib cfgIsPointer automaticEnv "".
Proof.
  intros Hmerge. unfold LoadJSONConfigInto.
  rewrite file_location_prefix, file_location_slice, Hmerge. reflexivity.
Qed.

(** X17.  [LoadJSONConfig] returns nil only when the configuration was given
    as a pointer, the location was obtained without error, loading did not
    fail, and every required value that points to a field of the loaded
    configuration points to a non-zero field. *)
Theorem LoadJSONConfig_nil_is_sound lib location cfgIsPointer automaticEnv
    c requireds :
  LoadJSONConfig ToUpper lib location cfgIsPointer automaticEnv c requireds
    = Returns None →
  cfgIsPointer = true ∧ location.2 = None ∧
  LoadJSONConfigInto lib cfgIsPointer automaticEnv location.1 = None ∧
  ∀ q f v, PtrField q ∈ requireds → fieldAt c q = Some (f, v) → IsZero v = false.
Proof.
  unfold LoadJSONConfig. intros Hres.
  destruct (location.2) as [err|]; [done|].
  destruct (LoadJSONConfigInto lib cfgIsPointer automaticEnv location.1)
    as [err|] eqn:Hload; [done|].
  split_and!; [|done|done|].
  - unfold LoadJSONConfigInto in Hload. by destruct cfgIsPointer.
  - intros q f v Hin Hat. unfold LoadJSONConfig_required in Hres.
    destruct (decide (length requireds = 0)) as [Hlen|_].
    { destruct requireds; [by apply elem_of_nil in Hin|done]. }
    by apply (checkRequired_None ToUpper c [] requireds q f v).
Qed.
End LoaderFacts.

(** ** Properties of the logger *)

Section LoggerFacts.
Variable ToLower : string → string.
Variable sentry_Init : ClientOptions → option error.

Lemma append_nonempty (s t : string) : s ≠ "" → s +:+ t ≠ "".
Proof. by destruct s. Qed.

(** X18.  The options given to [sentry.Init] never have an empty release,
    and their environment is production for the production profile and
    development for every other profile, the debug profile included. *)
Theorem sentry_options_well_formed Config LogConfig :
  Release (sentryOptions Config LogConfig) ≠ "" ∧
  (Environment (sentryOptions Config LogConfig) = ProfileProduction ↔
     ProfileValue Config = ProfileProduction) ∧
  (Environment (sentryOptions Config LogConfig) = ProfileDevelopment ↔
     ProfileValue Config ≠ ProfileProduction) ∧
  Dsn (sentryOptions Config LogConfig) = SentryDsnValue LogConfig.
Proof.
  unfold sentryOptions. simpl. split_and!; [| | |done].
  - destruct (decide (AppNameValue Config = "")) as [Hn|Hn];
      destruct (decide (AppVersionValue Config ≠ "")); try done;
      by apply append_nonempty.
  - by destruct (decide (ProfileValue Config = ProfileProduction)).
  - by destruct (decide (ProfileValue Config = ProfileProduction)).
Qed.

(** X19.  [newSlogLogger] fails only through Sentry: it returns an error
    exactly when a [SentryConfig] with a non-empty DSN is present and
    [sentry.Init] fails on the options, and then it returns that error and
    no logger.  The flush hook is appended exactly when a logger fanned out
    to Sentry is returned. *)
Theorem newSlogLogger_fails_only_through_sentry Config LogConfig :
  let r := newSlogLogger ToLower sentry_Init Config LogConfig in
  (∀ err, r.1.2 = Some err ↔
     ∃ sc, LogConfig = Some sc ∧ SentryDsnValue sc ≠ "" ∧
           sentry_Init (sentryOptions Config sc) = Some err) ∧
  (r.1.1 = None ↔ is_Some r.1.2) ∧
  (r.2 = true ↔ ∃ h lvl, r.1.1 = Some (LoggerFanout h lvl)).
Proof.
  unfold newSlogLogger. simpl.
  destruct LogConfig as [sc|]; simpl.
  - destruct (decide (SentryDsnValue sc = "")) as [Hd|Hd]; simpl.
    + split_and!.
      * intros err. split; [done|]. intros (sc' & [= <-] & ? & _). done.
      * split; [done|]. by intros [? ?].
      * split; [done|]. by intros (? & ? & ?).
    + destruct (sentry_Init (sentryOptions Config sc)) as [e|] eqn:Hinit; simpl.
      * split_and!.
        -- intros err. split.
           ++ intros [= <-]. by exists sc.
           ++ intros (sc' & [= <-] & _ & Hi). congruence.
        -- split; [by eexists|done].
        -- split; [done|]. by intros (? & ? & ?).
      * split_and!.
        -- intros err. split; [done|]. intros (sc' & [= <-] & _ & Hi). congruence.
        -- split; [done|]. by intros [? ?].
        -- split; [|done]. intros _. by eexists _, _.
  - split_and!.
    + intros err. split; [done|]. by intros (sc & ? & _).
    + split; [done|]. by intros [? ?].
    + split; [done|]. by intros (? & ? & ?).
Qed.
End LoggerFacts.

(** ** The claims at sample inputs *)

Section Samples.
Import Demo.

Lemma replicate_failing n (cs : list nat) l :
  Forall (λ out, allCalls cs out l (λ o, o ≠ None)) (replicate n failing).
Proof. apply Forall_replicate. intros i _. done. Qed.

(** 2^31 failing Readiness probes on a sole indicator wrap its cell around
    to the least int32. *)
Lemma overflow_after_2_31_failures T n :
  (0 ≤ T)%Z → Z.of_nat n = 2147483648%Z →
  ∃ p, runProbes (ProbeReadiness <$> replicate n failing)
         (NewHealth (thresholds T) [db]) = Some p ∧
       Health_wf p ∧ checkers p = [db] ∧
       maxNotReadyConfig p !! db = Some T ∧
       notReadyCount p !! db = Some (-2147483648)%Z.
Proof.
  intros HT Hn.
  destruct (runProbes_wf (ProbeReadiness <$> replicate n failing)
              (NewHealth (thresholds T) [db]) (NewHealth_wf _ _))
    as (p & Hrun & Hwf & Hcs & _ & _).
  exists p. do 3 (split; [done|]).
  destruct (fresh_counter_fail (thresholds T) [db] db T (replicate n failing) p)
    as (Hthr & Hcnt);
    [apply list_elem_of_here|reflexivity|done|apply replicate_failing|done|].
  split; [done|]. rewrite Hcnt, length_replicate.
  change (occurrences db [db]) with 1. rewrite Nat.mul_1_r, Hn. done.
Qed.

(** C1, witness: [db] with threshold 0 after one failed Readiness probe. *)
Lemma C1_witness :
  ∃ res, Health_Liveness (afterFailures 1 (NewHealth (thresholds 0) [db])) healthy =
           Some (false, res, afterFailures 1 (NewHealth (thresholds 0) [db])) ∧
         res !! db = Some statusDownUnavailable.
Proof.
  apply (C1_threshold_exceeded_reports_down (thresholds 0) [db]
           [ProbeReadiness failing] _ healthy db 0 1).
  - reflexivity.
  - apply list_elem_of_here.
  - reflexivity.
  - reflexivity.
  - intros i _. reflexivity.
  - lia.
Defined.

(** C1, counterexample: the counter of [db] (1) exceeds its threshold (0)
    and its Liveness call returns nil, yet the status reported is DOWN and
    not UNAVAILABLE. *)
Lemma C1_counterexample :
  let p := afterFailures 1 (NewHealth (thresholds 0) [db]) in
  maxNotReadyConfig p !! db = Some 0%Z ∧
  notReadyCount p !! db = Some 1%Z ∧
  healthy 0 = None ∧
  ∃ res, Health_Liveness p healthy = Some (false, res, p) ∧
    res !! db = Some (mkHealthStatus HealthStatusDown (Some ErrUnavailable)) ∧
    Status <$> res !! db ≠ Some HealthUnavailable.
Proof.
  simpl. split_and!; [reflexivity..|].
  exists {[db := statusDownUnavailable]}. split_and!; [reflexivity..|].
  vm_compute. discriminate.
Qed.

(** C2, witness: threshold 2 and three failed Readiness probes. *)
Lemma C2_witness :
  ∃ b res, Health_Liveness (afterFailures 3 (NewHealth (thresholds 2) [db])) healthy =
             Some (b, res, afterFailures 3 (NewHealth (thresholds 2) [db])) ∧
    (Z.of_nat (length [failing; failing; failing] * occurrences db [db]) = 2%Z →
       res !! db = Some statusUp) ∧
    (Z.of_nat (length [failing; failing; failing] * occurrences db [db]) = (2 + 1)%Z →
       int32 2 ≠ MaxInt32 →
       b = false ∧ res !! db = Some statusDownUnavailable).
Proof.
  apply (C2_escalation_at_threshold_plus_one (thresholds 2) [db] db 2
           [failing; failing; failing] healthy).
  - apply list_elem_of_here.
  - reflexivity.
  - lia.
  - apply (replicate_failing 3).
  - reflexivity.
  - intros i _. reflexivity.
Defined.

(** C2, counterexample: with threshold 2^31-1, after 2^31 = T+1 consecutive
    failed Readiness calls the Liveness probe returns true and reports the
    indicator UP. *)
Lemma C2_counterexample :
  ∃ p res,
    runProbes (ProbeReadiness <$> replicate (Z.to_nat 2147483648) failing)
      (NewHealth (thresholds 2147483647) [db]) = Some p ∧
    Z.of_nat (length (replicate (Z.to_nat 2147483648) failing) * occurrences db [db])
      = (2147483647 + 1)%Z ∧
    Health_Liveness p healthy = Some (true, res, p) ∧
    res !! db = Some (mkHealthStatus HealthStatusUp None).
Proof.
  assert (Hn : Z.of_nat (Z.to_nat 2147483648) = 2147483648%Z)
    by (apply Z2Nat.id; lia).
  destruct (overflow_after_2_31_failures 2147483647 (Z.to_nat 2147483648))
    as (p & Hrun & Hwf & Hcs & Hthr & Hcnt); [lia|exact Hn|].
  destruct (Health_Liveness_spec p healthy Hwf) as (b & res & Hlive & Hb & _ & Hres).
  assert (Hexc : thresholdExceeded p db = false).
  { unfold thresholdExceeded. rewrite Hthr, Hcnt. reflexivity. }
  assert (b = true) as ->.
  { destruct b; [done|]. destruct Hb as [Hb _].
    destruct (Hb eq_refl) as (j & l & Hj & Hbad). rewrite Hcs in Hj.
    destruct j as [|j]; [|by destruct j].
    injection Hj as <-. simpl in Hbad. by rewrite Hexc in Hbad. }
  exists p, res. split_and!; [done| |done|].
  - rewrite length_replicate. change (occurrences db [db]) with 1.
    rewrite Nat.mul_1_r, Hn. reflexivity.
  - rewrite (Hres [] db []); [|done|apply not_elem_of_nil].
    simpl. by rewrite Hexc.
Qed.

(** C3, witness: of [db] and [cache], only the calls on [cache] fail. *)
Lemma C3_witness :
  (((Health_Readiness (NewHealth (thresholds 0) [db; cache]) (failingAt 1)).1.1 = false ↔
      ∃ i l, checkers (NewHealth (thresholds 0) [db; cache]) !! i = Some l ∧
             failingAt 1 i ≠ None) ∧
   (NoDup (checkers (NewHealth (thresholds 0) [db; cache])) →
      ((Health_Readiness (NewHealth (thresholds 0) [db; cache]) (failingAt 1)).1.1 = false ↔
         ∃ l s,
           (Health_Readiness (NewHealth (thresholds 0) [db; cache]) (failingAt 1)).1.2 !! l
             = Some s ∧ Status s = HealthUnavailable))) ∧
  ∃ b res,
    Health_Liveness (NewHealth (thresholds 0) [db; cache]) (failingAt 1) =
      Some (b, res, NewHealth (thresholds 0) [db; cache]) ∧
    (b = false ↔
       ∃ i l, checkers (NewHealth (thresholds 0) [db; cache]) !! i = Some l ∧
         (failingAt 1 i ≠ None ∨
          ∃ T c, maxNotReadyConfig (NewHealth (thresholds 0) [db; cache]) !! l = Some T ∧
                 notReadyCount (NewHealth (thresholds 0) [db; cache]) !! l = Some c ∧
                 (T < c)%Z)) ∧
    (NoDup (checkers (NewHealth (thresholds 0) [db; cache])) →
       (b = false ↔ ∃ l s, res !! l = Some s ∧ Status s = HealthStatusDown)).
Proof.
  apply (C3_aggregate_flags (NewHealth (thresholds 0) [db; cache])
           (failingAt 1) (failingAt 1)).
  - apply NewHealth_wf.
  - intros l T HT. apply NewHealth_maxNotReadyConfig in HT as (_ & HT & _).
    unfold thresholds in HT. destruct (decide (l = db)); [|discriminate HT].
    injection HT as <-. vm_compute. split; discriminate.
Defined.

(** C3, counterexample.  With [cache] registered twice and only its first
    Liveness call failing, the probe returns false while the one entry of
    the map is UP and [cache] has no threshold.  With [db] declaring the
    threshold 2^31, the probe on the fresh aggregator returns false while
    every call returns nil and the counter, 0, does not exceed the
    threshold. *)
Lemma C3_counterexample :
  (Health_Liveness (NewHealth (thresholds 0) [cache; cache]) (failingAt 0) =
     Some (false, {[cache := statusUp]}, NewHealth (thresholds 0) [cache; cache]) ∧
   maxNotReadyConfig (NewHealth (thresholds 0) [cache; cache]) !! cache = None) ∧
  (∃ res, Health_Liveness (NewHealth (thresholds 2147483648) [db]) healthy =
            Some (false, res, NewHealth (thresholds 2147483648) [db])) ∧
  healthy 0 = None ∧
  maxNotReadyConfig (NewHealth (thresholds 2147483648) [db]) !! db
    = Some 2147483648%Z ∧
  notReadyCount (NewHealth (thresholds 2147483648) [db]) !! db = Some 0%Z ∧
  ¬ (2147483648 < 0)%Z.
Proof.
  split_and!; try reflexivity.
  - by eexists.
  - lia.
Qed.

(** C4, witness: [db] with threshold 2 and three failures behind it. *)
Lemma C4_witness :
  notReadyCount (afterFailures 3 (NewHealth (thresholds 2) [db])) !! db = Some 3%Z ∧
  notReadyCount
    (Health_Readiness (afterFailures 3 (NewHealth (thresholds 2) [db])) healthy).2 !! db
    = Some 0%Z.
Proof.
  split; [reflexivity|].
  apply (C4_success_resets_counter
           (afterFailures 3 (NewHealth (thresholds 2) [db])) healthy db 3 [] []).
  - apply (Health_Readiness_wf _ failing), (Health_Readiness_wf _ failing),
      (Health_Readiness_wf _ failing), NewHealth_wf.
  - reflexivity.
  - reflexivity.
  - apply not_elem_of_nil.
  - reflexivity.
Defined.

(** C5, witness: [cache] declares no threshold and Readiness fails 100
    times in a row. *)
Lemma C5_witness :
  ∃ b res,
    Health_Liveness (afterFailures 100 (NewHealth (thresholds 0) [db; cache])) (failingAt 0) =
      Some (b, res, afterFailures 100 (NewHealth (thresholds 0) [db; cache])) ∧
    res !! cache = Some statusUp ∧
    (b = false →
       ∃ i l', [db; cache] !! i = Some l' ∧ l' ≠ cache ∧
         (failingAt 0 i ≠ None ∨
          ∃ T c,
            maxNotReadyConfig (afterFailures 100 (NewHealth (thresholds 0) [db; cache])) !! l'
              = Some T ∧
            notReadyCount (afterFailures 100 (NewHealth (thresholds 0) [db; cache])) !! l'
              = Some c ∧
            (int32 T < c)%Z)).
Proof.
  apply (C5_unthresholded_never_escalates (thresholds 0) [db; cache]
           (replicate 100 (ProbeReadiness failing)) _ cache (failingAt 0)).
  - left. reflexivity.
  - vm_compute. reflexivity.
  - apply list_elem_of_further, list_elem_of_here.
  - intros [|[|i]] Hi; [discriminate Hi|reflexivity|discriminate Hi].
Defined.

(** C6, witness: two Liveness probes between two Readiness probes. *)
Lemma C6_witness :
  runProbes (List.filter isReadinessProbe
               [ProbeReadiness failing; ProbeLiveness healthy;
                ProbeLiveness failing; ProbeReadiness failing])
    (NewHealth (thresholds 2) [db; cache])
    = Some (afterFailures 2 (NewHealth (thresholds 2) [db; cache])) ∧
  (List.filter isReadinessProbe
     [ProbeReadiness failing; ProbeLiveness healthy;
      ProbeLiveness failing; ProbeReadiness failing] = [] →
   notReadyCount (afterFailures 2 (NewHealth (thresholds 2) [db; cache])) =
   notReadyCount (NewHealth (thresholds 2) [db; cache])).
Proof.
  apply (C6_liveness_never_mutates
           [ProbeReadiness failing; ProbeLiveness healthy;
            ProbeLiveness failing; ProbeReadiness failing]
           (NewHealth (thresholds 2) [db; cache])).
  reflexivity.
Defined.

(** C7, witness: the call on [db] fails and [cache], registered after it,
    is probed all the same. *)
Lemma C7_witness :
  (dom (Health_Readiness (NewHealth (thresholds 0) [db; cache]) (failingAt 0)).1.2
     = list_to_set [db; cache] ∧
   (Health_Readiness (NewHealth (thresholds 0) [db; cache]) (failingAt 0)).1.2 !! cache
     = Some (readinessStatus (failingAt 0 1))) ∧
  ∃ b res,
    Health_Liveness (NewHealth (thresholds 0) [db; cache]) (failingAt 0) =
      Some (b, res, NewHealth (thresholds 0) [db; cache]) ∧
    dom res = list_to_set [db; cache] ∧
    res !! cache =
      Some (livenessStatus (NewHealth (thresholds 0) [db; cache]) cache (failingAt 0 1)).
Proof.
  apply (C7_no_short_circuit (NewHealth (thresholds 0) [db; cache]) (failingAt 0) 1 cache).
  - apply NewHealth_wf.
  - reflexivity.
  - apply not_elem_of_nil.
Defined.

(** C8, witness: three failed Readiness probes and a Liveness probe. *)
Lemma C8_witness :
  (MinInt32 ≤ 3 ≤ MaxInt32)%Z ∧
  (Z.of_nat (length (List.filter isReadinessProbe
      [ProbeReadiness failing; ProbeReadiness failing;
       ProbeLiveness healthy; ProbeReadiness failing]) * occurrences db [db]) ≤ MaxInt32 →
   0 ≤ 3 ≤ Z.of_nat (length (List.filter isReadinessProbe
      [ProbeReadiness failing; ProbeReadiness failing;
       ProbeLiveness healthy; ProbeReadiness failing]) * occurrences db [db]))%Z.
Proof.
  apply (C8_counter_range (thresholds 2) [db]
           [ProbeReadiness failing; ProbeReadiness failing;
            ProbeLiveness healthy; ProbeReadiness failing]
           (afterFailures 3 (NewHealth (thresholds 2) [db])) db 3).
  - reflexivity.
  - reflexivity.
Defined.

(** C8, counterexample: after 2^31 failed Readiness probes on a fresh
    aggregator the cell of [db] holds -2^31. *)
Lemma C8_counterexample :
  ∃ p c,
    runProbes (ProbeReadiness <$> replicate (Z.to_nat 2147483648) failing)
      (NewHealth (thresholds 0) [db]) = Some p ∧
    notReadyCount p !! db = Some c ∧ (c < 0)%Z.
Proof.
  destruct (overflow_after_2_31_failures 0 (Z.to_nat 2147483648))
    as (p & Hrun & _ & _ & _ & Hcnt); [lia|apply Z2Nat.id; lia|].
  exists p, (-2147483648)%Z. split_and!; [done..|lia].
Qed.

(** C10, witness: [db] registered twice, around [cache]. *)
Lemma C10_witness :
  (size (Health_Readiness (NewHealth (thresholds 5) [db; cache; db]) failing).1.2
     = size (list_to_set [db; cache; db] : gset nat) ∧
   (Health_Readiness (NewHealth (thresholds 5) [db; cache; db]) failing).1.2 !! db
     = Some (readinessStatus (failing 2))) ∧
  (∃ b res,
     Health_Liveness (NewHealth (thresholds 5) [db; cache; db]) failing =
       Some (b, res, NewHealth (thresholds 5) [db; cache; db]) ∧
     size res = size (list_to_set [db; cache; db] : gset nat) ∧
     res !! db =
       Some (livenessStatus (NewHealth (thresholds 5) [db; cache; db]) db (failing 2))) ∧
  (allCalls [db; cache; db] failing db (λ o, o ≠ None) →
   notReadyCount (Health_Readiness (NewHealth (thresholds 5) [db; cache; db]) failing).2 !! db
     = Some (int32 (0 + Z.of_nat (occurrences db [db; cache; db])))).
Proof.
  apply (C10_duplicate_indicator (NewHealth (thresholds 5) [db; cache; db])
           failing db [db; cache] [] 0).
  - apply NewHealth_wf.
  - reflexivity.
  - apply not_elem_of_nil.
  - reflexivity.
  - vm_compute. split; discriminate.
Defined.

(** C9, witness: the configuration of examples/config with [Required]
    unset, and with it set. *)
Lemma C9_witness :
  ((∀ q f v, PtrField q ∈ [ptrRequired] →
      fieldAt (myRequiredConfig false true) q = Some (f, v) → IsZero v = false) →
   LoadJSONConfig_required asciiToUpper (myRequiredConfig false true) [ptrRequired]
     = Returns None) ∧
  ((∃ q f v, PtrField q ∈ [ptrRequired] ∧
      fieldAt (myRequiredConfig false true) q = Some (f, v) ∧ IsZero v = true) →
   ∃ q f v, PtrField q ∈ [ptrRequired] ∧
     fieldAt (myRequiredConfig false true) q = Some (f, v) ∧ IsZero v = true ∧
     LoadJSONConfig_required asciiToUpper (myRequiredConfig false true) [ptrRequired]
       = Returns (Some (missingError asciiToUpper f))).
Proof.
  apply (C9_required_check asciiToUpper (myRequiredConfig false true) [ptrRequired]).
  - eexists. reflexivity.
  - reflexivity.
  - repeat constructor.
Defined.

(** C9, counterexample: [Required] and [Other] are both required and both
    unset; the error names [Required] alone, and it is the error returned
    when [Other] is set. *)
Lemma C9_counterexample :
  fieldAt (myRequiredConfig true true) [1; 0] =
    Some (mkStructField "Required" "required" "" true, Scalar true) ∧
  fieldAt (myRequiredConfig true true) [2] =
    Some (mkStructField "Other" "" "" true, Scalar true) ∧
  LoadJSONConfig_required asciiToUpper (myRequiredConfig true true)
    [ptrRequired; ptrOther] =
    Returns (Some (ErrorString
      "[Required] is config, consider setting value: [required] in config file or [REQUIRED] in env")) ∧
  LoadJSONConfig_required asciiToUpper (myRequiredConfig true true)
    [ptrRequired; ptrOther] =
  LoadJSONConfig_required asciiToUpper (myRequiredConfig true false)
    [ptrRequired; ptrOther].
Proof. split_and!; reflexivity. Qed.
End Samples.

(** ** The further properties at sample inputs *)

Section MoreSamples.
Import Demo.

Lemma probe_flag_and_entries_witness :
  ∃ b res,
    Health_Liveness (NewHealth (thresholds 0) [db; cache]) (failingAt 1) =
      Some (b, res, NewHealth (thresholds 0) [db; cache]) ∧
    (b = true → ∀ l s, res !! l = Some s → Status s = HealthStatusUp) ∧
    (b = false → NoDup (checkers (NewHealth (thresholds 0) [db; cache])) →
       ∃ l s, res !! l = Some s ∧ Status s = HealthStatusDown) ∧
    ((Health_Readiness (NewHealth (thresholds 0) [db; cache]) (failingAt 1)).1.1 = true →
       ∀ l s,
         (Health_Readiness (NewHealth (thresholds 0) [db; cache]) (failingAt 1)).1.2 !! l
           = Some s → Status s = HealthStatusUp) ∧
    ((Health_Readiness (NewHealth (thresholds 0) [db; cache]) (failingAt 1)).1.1 = false →
       NoDup (checkers (NewHealth (thresholds 0) [db; cache])) →
       ∃ l s,
         (Health_Readiness (NewHealth (thresholds 0) [db; cache]) (failingAt 1)).1.2 !! l
           = Some s ∧ Status s = HealthUnavailable).
Proof.
  apply (probe_flag_and_entries (NewHealth (thresholds 0) [db; cache]) (failingAt 1)).
  apply NewHealth_wf.
Defined.

Lemma threshold_is_exact_boundary_witness :
  ∃ b res,
    Health_Liveness (afterFailures 3 (NewHealth (thresholds 2) [db])) healthy =
      Some (b, res, afterFailures 3 (NewHealth (thresholds 2) [db])) ∧
    ((Z.of_nat (length [failing; failing; failing] * occurrences db [db]) ≤ 2)%Z →
       res !! db = Some statusUp) ∧
    ((2 < Z.of_nat (length [failing; failing; failing] * occurrences db [db]))%Z →
       b = false ∧ res !! db = Some statusDownUnavailable).
Proof.
  apply (threshold_is_exact_boundary (thresholds 2) [db] db 2
           [failing; failing; failing] healthy).
  - apply list_elem_of_here.
  - reflexivity.
  - split; [lia|vm_compute; discriminate].
  - apply (replicate_failing 3).
  - vm_compute. discriminate.
  - reflexivity.
  - intros i _. reflexivity.
Defined.

Lemma readiness_success_restores_liveness_witness :
  ∃ b res,
    Health_Liveness
      (Health_Readiness (afterFailures 3 (NewHealth (thresholds 2) [db])) healthy).2
      healthy =
      Some (b, res,
            (Health_Readiness (afterFailures 3 (NewHealth (thresholds 2) [db])) healthy).2) ∧
    res !! db = Some statusUp.
Proof.
  apply (readiness_success_restores_liveness (thresholds 2) [db]
           [ProbeReadiness failing; ProbeReadiness failing; ProbeReadiness failing]
           (afterFailures 3 (NewHealth (thresholds 2) [db]))
           healthy healthy db 2 [] []).
  - reflexivity.
  - reflexivity.
  - vm_compute. discriminate.
  - reflexivity.
  - apply not_elem_of_nil.
  - reflexivity.
  - intros i _. reflexivity.
Defined.

Lemma truncated_threshold_fails_at_once_witness :
  ∃ res, Health_Liveness (NewHealth (thresholds 2147483648) [db]) healthy =
           Some (false, res, NewHealth (thresholds 2147483648) [db]) ∧
         res !! db = Some statusDownUnavailable.
Proof.
  apply (truncated_threshold_fails_at_once (thresholds 2147483648) [db] db
           2147483648 healthy).
  - apply list_elem_of_here.
  - reflexivity.
  - lia.
  - vm_compute. reflexivity.
  - intros i _. reflexivity.
Defined.

Lemma readiness_counter_is_local_witness :
  notReadyCount
    (Health_Readiness (NewHealth (thresholds 2) [db; cache]) failing).2 !! db =
  notReadyCount
    (Health_Readiness (NewHealth (thresholds 2) [db; cache]) (failingAt 0)).2 !! db.
Proof.
  apply (readiness_counter_is_local (NewHealth (thresholds 2) [db; cache])
           (NewHealth (thresholds 2) [db; cache]) failing (failingAt 0) db).
  - reflexivity.
  - intros [|[|j]] Hj; [split; discriminate|discriminate Hj|discriminate Hj].
  - reflexivity.
Defined.

Lemma ready_probe_clears_counters_witness :
  notReadyCount (afterFailures 2 (NewHealth (thresholds 2) [db; cache])) !! db
    = Some 2%Z ∧
  notReadyCount
    (Health_Readiness (afterFailures 2 (NewHealth (thresholds 2) [db; cache])) healthy).2
    !! db = Some 0%Z.
Proof.
  split; [reflexivity|].
  apply (ready_probe_clears_counters
           (afterFailures 2 (NewHealth (thresholds 2) [db; cache])) healthy db).
  - reflexivity.
  - apply list_elem_of_here.
  - exists 2%Z. reflexivity.
Defined.

Lemma required_check_nil_is_sound_witness :
  IsZero (Scalar false) = false.
Proof.
  apply (required_check_nil_is_sound asciiToUpper (myRequiredConfig false true)
           [ptrRequired] [1; 0] (mkStructField "Required" "required" "" true)
           (Scalar false)).
  - reflexivity.
  - apply list_elem_of_here.
  - reflexivity.
Defined.

Lemma required_check_error_is_sound_witness :
  (missingError asciiToUpper (mkStructField "Required" "required" "" true)
     = errNotPointer ∧ NotPointer ∈ [ptrRequired]) ∨
  ∃ q f v, PtrField q ∈ [ptrRequired] ∧
           fieldAt (myRequiredConfig true true) q = Some (f, v) ∧
           IsZero v = true ∧
           missingError asciiToUpper (mkStructField "Required" "required" "" true)
             = missingError asciiToUpper f.
Proof.
  apply (required_check_error_is_sound asciiToUpper (myRequiredConfig true true)
           [ptrRequired]).
  reflexivity.
Defined.

Lemma malformed_required_values_rejected_witness :
  LoadJSONConfig_required asciiToUpper (myRequiredConfig false false)
    [ptrRequired; NotPointer] ≠ Returns None.
Proof.
  apply (malformed_required_values_rejected asciiToUpper
           (myRequiredConfig false false) [ptrRequired; NotPointer]).
  right. left. apply list_elem_of_further, list_elem_of_here.
Defined.

Lemma unexported_field_never_passes_witness :
  LoadJSONConfig_required asciiToUpper withSecret [PtrField [0]] ≠ Returns None.
Proof.
  apply (unexported_field_never_passes asciiToUpper withSecret [PtrField [0]]).
  - discriminate.
  - reflexivity.
Defined.

Lemma flat_config_reports_first_required_witness :
  LoadJSONConfig_required asciiToUpper (Struct flatFields)
    ([PtrField [0]] ++ PtrField [2] :: [PtrField [1]]) =
    Returns (Some (missingError asciiToUpper (untagged "Other"))).
Proof.
  apply (flat_config_reports_first_required asciiToUpper flatFields
           [PtrField [0]] 2 [PtrField [1]] (untagged "Other") (Scalar true)).
  - repeat (constructor; [split; [reflexivity|eexists; reflexivity]|]).
    constructor.
  - repeat constructor.
  - intros q f' v' Hin Hat. apply list_elem_of_singleton in Hin.
    injection Hin as ->. injection Hat as _ <-. reflexivity.
  - reflexivity.
  - reflexivity.
Defined.

Lemma core_env_location_round_trip_witness :
  (CoreEnv_AppConfigLocationValue joinSlash (absUnder "/srv/")).2 = None ∧
  LoadJSONConfigInto (viperWith (Some (noSuchFile, false))) true true
    (CoreEnv_AppConfigLocationValue joinSlash (absUnder "/srv/")).1 =
    match viper_MergeInConfig (viperWith (Some (noSuchFile, false)))
            "/srv/./configs/app.json" with
    | Some (err, false) => Some err
    | _ => None
    end.
Proof.
  apply (core_env_location_round_trip joinSlash (absUnder "/srv/")
           (viperWith (Some (noSuchFile, false))) true "/srv/./configs/app.json");
    reflexivity.
Defined.

Lemma missing_file_is_no_file_witness :
  LoadJSONConfigInto (viperWith (Some (noSuchFile, true))) true true
    ("file:" +:+ "/srv/configs/app.json") =
  LoadJSONConfigInto (viperWith (Some (noSuchFile, true))) true true "".
Proof.
  apply (missing_file_is_no_file (viperWith (Some (noSuchFile, true))) true true
           "/srv/configs/app.json" noSuchFile).
  reflexivity.
Defined.

Lemma LoadJSONConfig_nil_is_sound_witness :
  true = true ∧ (None : option error) = None ∧
  LoadJSONConfigInto (viperWith (Some (noSuchFile, true))) true true
    "file:/srv/configs/app.json" = None ∧
  ∀ q f v, PtrField q ∈ [ptrRequired] →
    fieldAt (myRequiredConfig false true) q = Some (f, v) → IsZero v = false.
Proof.
  apply (LoadJSONConfig_nil_is_sound asciiToUpper
           (viperWith (Some (noSuchFile, true)))
           ("file:/srv/configs/app.json", None) true true
           (myRequiredConfig false true) [ptrRequired]).
  reflexivity.
Defined.
End MoreSamples.
